(** * A shallow embedding of the lender service (src/server.py)

    The service has three remote operations, all methods of
    [LenderServicer]:

    - [DbToHdfs]       (MaterializeDataset in the specification),
    - [BlockLocations] (LocateBlocks),
    - [CalcAvgLoan]    (ComputePartitionAverage).

    Python exceptions are values of type [exc]; code that can raise lives
    in the monad [M], which threads the HDFS name space, collects the
    events a call performs (log lines, handles opened and closed, sleeps)
    and carries either a returned value or a raised exception.  What the
    collaborators do (MySQL, the HDFS client, WebHDFS) is an explicit
    argument of each operation.

    Modelling conventions:
    - [loan_amount] and [county_code] are integer columns.  numpy computes
      the mean in binary64; for non-negative amounts whose sum is below
      2^53 the sum is exact and the quotient, once truncated by [int], is
      the integer quotient rounded toward zero, which is what [int_mean]
      computes.  The theorems that give the value of an average returned
      by the service carry this bound ([binary64_exact]); the lemmas about
      [int_mean] itself hold without it.
    - The SQL query has no ORDER BY: the order of its rows is the choice
      of the engine, and the statements about them do not depend on it.
    - [str(e)] of an exception is the field [exc_str]. *)

From stdpp Require Import gmap strings list fin_maps pretty.
From Stdlib Require Import ZArith Lia.

Local Open Scope string_scope.
Local Open Scope list_scope.
Local Open Scope Z_scope.

(** ** Python exceptions *)

Module Py.

Inductive pyclass :=
  | FileNotFoundError   (* subclass of OSError *)
  | OSError
  | ArrowInvalid        (* pyarrow.lib.ArrowInvalid, subclass of ValueError *)
  | ValueError
  | HTTPError           (* requests.exceptions.HTTPError *)
  | Exception_.         (* any other subclass of Exception *)

Definition pyclass_eqb (c d : pyclass) : bool :=
  match c, d with
  | FileNotFoundError, FileNotFoundError | OSError, OSError
  | ArrowInvalid, ArrowInvalid | ValueError, ValueError
  | HTTPError, HTTPError | Exception_, Exception_ => true
  | _, _ => false
  end.

(** [issubclass c d]: the class hierarchy of the exceptions above. *)
Definition issubclass (c d : pyclass) : bool :=
  match c, d with
  | _, Exception_ => true
  | FileNotFoundError, OSError => true
  | HTTPError, OSError => true
  | ArrowInvalid, ValueError => true
  | _, _ => pyclass_eqb c d
  end.

Record exc := Exc { exc_class : pyclass; exc_str : string }.

Definition isinstance (e : exc) (c : pyclass) : bool :=
  issubclass (exc_class e) c.

End Py.
Export Py.

(** ** Data: loans, tables, files *)

Record loan := Loan {
  county_code : Z;
  loan_amount : Z;
  loan_type_id : Z
}.

Record loan_type := LoanType {
  id : Z;
  loan_type_name : string
}.

(** A row of [loans INNER JOIN loan_types]; a table is a list of rows. *)
Definition row : Type := loan * loan_type.
Definition table : Type := list row.

Record database := Database {
  loans : list loan;
  loan_types : list loan_type
}.

(** What a read of an HDFS file gives: a parquet table, or the exception
    the client raises (blocks unavailable, content that is not parquet). *)
Inductive contents :=
  | Parquet (t : table)
  | Unreadable (e : exc).

Record hfile := HFile {
  replication : Z;
  body : contents
}.

Inductive level := INFO | WARNING | ERROR.

Inductive event :=
  | Log (l : level) (msg : string)
  | DbConnect
  | DbClose
  | Sleep (seconds : Z)
  | OpenInput (path : string)
  | CloseInput (path : string)
  | OpenOutput (path : string)
  | CloseOutput (path : string)
  | HttpGet (url : string).

(** ** The monad of a handler: HDFS state, events, exceptions *)

Inductive outcome (A : Type) :=
  | Returned (a : A)
  | Raised (e : exc).
Arguments Returned {A} a.
Arguments Raised {A} e.

Definition M (A : Type) : Type :=
  gmap string hfile → outcome A * gmap string hfile * list event.

Definition ret {A} (a : A) : M A := λ fs, (Returned a, fs, []).

Definition raise {A} (e : exc) : M A := λ fs, (Raised e, fs, []).

Definition bind {A B} (m : M A) (k : A → M B) : M B := λ fs,
  match m fs with
  | (Returned a, fs1, t1) =>
      let '(o, fs2, t2) := k a fs1 in (o, fs2, t1 ++ t2)
  | (Raised e, fs1, t1) => (Raised e, fs1, t1)
  end.

Definition emit (ev : event) : M unit := λ fs, (Returned tt, fs, [ev]).

Declare Scope py_scope.
Delimit Scope py_scope with py.
Notation "'do' x <- m ; k" := (bind m (λ x, k))
  (at level 10, x name, m at level 100, k at level 200) : py_scope.
Notation "m ;; k" := (bind m (λ _, k))
  (at level 100, k at level 200, right associativity) : py_scope.
Local Open Scope py_scope.

(** [try: body except ...]: [handlers e] is the first matching [except]
    clause, [None] when no clause matches and [e] propagates. *)
Definition try_except {A} (body : M A) (handlers : exc → option (M A)) : M A :=
  λ fs,
  match body fs with
  | (Returned a, fs1, t1) => (Returned a, fs1, t1)
  | (Raised e, fs1, t1) =>
      match handlers e with
      | Some h => let '(o, fs2, t2) := h fs1 in (o, fs2, t1 ++ t2)
      | None => (Raised e, fs1, t1)
      end
  end.

(** [try: body finally: fin], as the [with] statements below need it. *)
Definition finally {A} (body : M A) (fin : M unit) : M A := λ fs,
  let '(o, fs1, t1) := body fs in
  match fin fs1 with
  | (Returned _, fs2, t2) => (o, fs2, t1 ++ t2)
  | (Raised e, fs2, t2) => (Raised e, fs2, t1 ++ t2)
  end.

Definition logger_info (msg : string) : M unit := emit (Log INFO msg).
Definition logger_warning (msg : string) : M unit := emit (Log WARNING msg).
Definition logger_error (msg : string) : M unit := emit (Log ERROR msg).

(** ** The HDFS client (pyarrow.fs.HadoopFileSystem, pyarrow.parquet) *)

(** A fault of an output stream: [open_output_stream] raises and the file
    stays as it was, or [write_table] raises after the file was created,
    which leaves [leftover] at the path. *)
Inductive write_fault :=
  | OpenFails (e : exc)
  | WriteFails (e : exc) (leftover : contents).

Record hdfs_env := HdfsEnv {
  connect_fault : option exc;       (* HadoopFileSystem(...) raises *)
  output_fault : option write_fault
}.

Definition HadoopFileSystem (env : hdfs_env) : M unit :=
  match connect_fault env with
  | Some e => raise e
  | None => ret tt
  end.

Definition no_such_file (path : string) : exc :=
  Exc FileNotFoundError
    ("[Errno 2] Opening HDFS file '" +:+ path +:+
     "' failed. Detail: [errno 2] No such file or directory").

(** [hdfs.open_input_file(path)]: a missing path raises FileNotFoundError. *)
Definition open_input_file (path : string) : M contents := λ fs,
  match fs !! path with
  | None => (Raised (no_such_file path), fs, [])
  | Some f => (Returned (body f), fs, [OpenInput path])
  end.

(** The rows of [t] that pass [filters=[(county_code, =, key)]]. *)
Definition matching (key : Z) (t : table) : table :=
  filter (λ r : row, county_code r.1 = key) t.

(** [pq.read_table(f)] and [pq.read_table(f, filters=[(county_code, =, k)])]. *)
Definition read_table (f : contents) (filters : option Z) : M table :=
  match f with
  | Unreadable e => raise e
  | Parquet t =>
      match filters with
      | None => ret t
      | Some k => ret (matching k t)
      end
  end.

(** [with hdfs.open_input_file(path) as f: table = pq.read_table(f, ...)] *)
Definition with_input_file (path : string) (filters : option Z) : M table :=
  do f <- open_input_file path;
  finally (read_table f filters) (emit (CloseInput path)).

(** [with hdfs.open_output_stream(path) as f: pq.write_table(table, f)] *)
Definition with_output_stream (env : hdfs_env) (repl : Z) (path : string)
    (t : table) : M unit := λ fs,
  match output_fault env with
  | Some (OpenFails e) => (Raised e, fs, [])
  | Some (WriteFails e leftover) =>
      (Raised e, <[path := HFile repl leftover]> fs,
       [OpenOutput path; CloseOutput path])
  | None =>
      (Returned tt, <[path := HFile repl (Parquet t)]> fs,
       [OpenOutput path; CloseOutput path])
  end.

(** [int(table.column(loan_amount).to_numpy().mean())]: the mean of an empty
    array is NaN, which [int] refuses; otherwise [int] truncates.  numpy
    adds and divides in binary64, so the quotient below is the value of the
    code in the range [binary64_exact]; outside of it the binary64 mean can
    be off the exact one. *)
Definition column_loan_amount (t : table) : list Z :=
  map (λ r : row, loan_amount r.1) t.

Definition sum_Z (xs : list Z) : Z := foldr Z.add 0 xs.

Definition nan_to_int : exc :=
  Exc ValueError "cannot convert float NaN to integer".

Definition int_mean (xs : list Z) : M Z :=
  match xs with
  | [] => raise nan_to_int
  | _ :: _ => ret (sum_Z xs ÷ Z.of_nat (length xs))
  end.

(** ** CalcAvgLoan *)

Record CalcAvgLoanResp := MkCalcAvgLoanResp {
  avg_loan : Z;
  source : string;
  error : string
}.

Definition partition_path (county_code : Z) : string :=
  "/partitions/" +:+ pretty county_code +:+ ".parquet".

Definition main_file_path : string := "/hdma-wi-2021.parquet".

Global Arguments partition_path : simpl never.
Global Arguments main_file_path : simpl never.

(** The inner [try]: either the handler returns from inside it (reuse), or
    an [except] clause sets [source] and control falls through. *)
Definition read_partition (county_code : Z) : M (CalcAvgLoanResp + string) :=
  let cc := pretty county_code in
  try_except
    (logger_info ("CalcAvgLoan: Attempting to read partition file for county " +:+ cc);;
     do table <- with_input_file (partition_path county_code) None;
     do avg <- int_mean (column_loan_amount table);
     logger_info ("CalcAvgLoan: Reused partition file for county " +:+ cc +:+
                  ", avg=" +:+ pretty avg);;
     ret (inl (MkCalcAvgLoanResp avg "reuse" "")))
    (λ e,
       if isinstance e FileNotFoundError then Some (
         logger_info ("CalcAvgLoan: Partition not found for county " +:+ cc +:+
                      ", creating from main file");;
         ret (inr "create"))
       else if isinstance e OSError then Some (
         logger_warning ("CalcAvgLoan: Partition corrupted for county " +:+ cc +:+
                         ", recreating: " +:+ exc_str e);;
         ret (inr "recreate"))
       else None).

(** The body of the outer [try]. *)
Definition CalcAvgLoan_try (env : hdfs_env) (county_code : Z) : M CalcAvgLoanResp :=
  let cc := pretty county_code in
  HadoopFileSystem env;;
  do r <- read_partition county_code;
  match r with
  | inl resp => ret resp
  | inr src =>
      logger_info ("CalcAvgLoan: Reading main file for county " +:+ cc);;
      do table <- with_input_file main_file_path (Some county_code);
      do avg <- int_mean (column_loan_amount table);
      HadoopFileSystem env;;
      with_output_stream env 1 (partition_path county_code) table;;
      logger_info ("CalcAvgLoan: Created partition for county " +:+ cc +:+
                   ", avg=" +:+ pretty avg +:+ ", source=" +:+ src);;
      ret (MkCalcAvgLoanResp avg src "")
  end.

(** The handler: the outer [except Exception] turns what is left into a
    response. *)
Definition CalcAvgLoan (env : hdfs_env) (county_code : Z) : M CalcAvgLoanResp :=
  try_except (CalcAvgLoan_try env county_code)
    (λ e,
       if isinstance e Exception_ then Some (
         logger_error ("CalcAvgLoan: Unexpected error for county " +:+
                       pretty county_code +:+ ": " +:+ exc_str e);;
         ret (MkCalcAvgLoanResp 0 "" (exc_str e)))
       else None).

(** ** DbToHdfs *)

Record StatusString := MkStatusString { status : string }.

(** What MySQL, pandas and HDFS do during one attempt. *)
Record attempt_env := AttemptEnv {
  db_connect_fault : option exc;    (* engine.connect() raises *)
  db_query_fault : option exc;      (* pd.read_sql raises *)
  db : database;                    (* the tables when the query runs *)
  from_pandas_fault : option exc;   (* pa.Table.from_pandas raises *)
  hdfs : hdfs_env
}.

(** [loans INNER JOIN loan_types ON loans.loan_type_id = loan_types.id].
    The rows are listed loan after loan; without ORDER BY the engine may
    list them in any order. *)
Definition inner_join (d : database) : table :=
  flat_map
    (λ l, map (pair l) (filter (λ t, loan_type_id l = id t) (loan_types d)))
    (loans d).

(** [WHERE loans.loan_amount > 30000 AND loans.loan_amount < 800000] *)
Definition eligible (r : row) : Prop :=
  loan_amount r.1 > 30000 ∧ loan_amount r.1 < 800000.

Global Instance eligible_dec r : Decision (eligible r).
Proof. unfold eligible. apply _. Defined.

Definition query (d : database) : table := filter eligible (inner_join d).

Definition engine_connect (env : attempt_env) : M unit :=
  match db_connect_fault env with
  | Some e => raise e
  | None => emit DbConnect
  end.

Definition pd_read_sql (env : attempt_env) : M table :=
  match db_query_fault env with
  | Some e => raise e
  | None => ret (query (db env))
  end.

Definition conn_close : M unit := emit DbClose.

Definition from_pandas (env : attempt_env) (df : table) : M table :=
  match from_pandas_fault env with
  | Some e => raise e
  | None => ret df
  end.

Definition time_sleep (seconds : Z) : M unit := emit (Sleep seconds).

Definition max_retries : nat := 5.

(** The body of the [try] of one iteration.  [create_engine] only builds
    the engine object; the connection is made by [engine.connect()]. *)
Definition DbToHdfs_try (env : attempt_env) (attempt : nat) : M StatusString :=
  logger_info ("DbToHdfs: Attempt " +:+ pretty (attempt + 1)%nat);;
  engine_connect env;;
  do df <- pd_read_sql env;
  conn_close;;
  logger_info ("DbToHdfs: Read " +:+ pretty (length df) +:+ " rows from database");;
  do table <- from_pandas env df;
  HadoopFileSystem (hdfs env);;
  with_output_stream (hdfs env) 2 main_file_path table;;
  logger_info "DbToHdfs: Successfully wrote to HDFS";;
  ret (MkStatusString
         ("DbToHdfs: Successfully wrote " +:+ pretty (length df) +:+ " rows")).

(** One iteration: [inl s] when the handler returns [s], [inr tt] when the
    loop goes on. *)
Definition DbToHdfs_iteration (env : attempt_env) (attempt : nat)
    : M (StatusString + unit) :=
  try_except
    (do s <- DbToHdfs_try env attempt; ret (inl s))
    (λ e,
       if isinstance e Exception_ then Some (
         logger_error ("DbToHdfs: Attempt " +:+ pretty (attempt + 1)%nat +:+
                       " failed: " +:+ exc_str e);;
         if (attempt <? max_retries - 1)%nat then
           time_sleep 10;; ret (inr tt)
         else
           ret (inl (MkStatusString
                  ("ERROR: Could not complete operation after " +:+
                   pretty max_retries +:+ " attempts: " +:+ exc_str e))))
       else None).

(** [for attempt in range(max_retries)]; a loop that ends without a
    [return] makes the handler return [None]. *)
Fixpoint DbToHdfs_loop (envs : nat → attempt_env) (attempts : list nat)
    : M (option StatusString) :=
  match attempts with
  | [] => ret None
  | attempt :: rest =>
      do r <- DbToHdfs_iteration (envs attempt) attempt;
      match r with
      | inl s => ret (Some s)
      | inr _ => DbToHdfs_loop envs rest
      end
  end.

Definition DbToHdfs (envs : nat → attempt_env) : M (option StatusString) :=
  DbToHdfs_loop envs (seq 0 max_retries).

(** ** BlockLocations *)

(** The JSON of WebHDFS GETFILEBLOCKLOCATIONS, with the keys that the
    handler reads through [.get(key, default)] optional. *)
Record block_location := BlockLoc { hosts : option (list string) }.

Record block_locations := BlockLocs {
  BlockLocation : option (list block_location)
}.

Record webhdfs_json := WebHdfsJson { BlockLocations_key : option block_locations }.

Record response := Response {
  status_code : Z;
  reason : string;
  url : string;
  json : outcome webhdfs_json       (* response.json() returns or raises *)
}.

(** [requests.get(url)] returns a response or raises. *)
Definition webhdfs : Type := string → outcome response.

Module BL.
Record BlockLocationsResp := MkBlockLocationsResp {
  block_entries : gmap string nat;
  error : string
}.
End BL.

Definition requests_get (net : webhdfs) (u : string) : M response := λ fs,
  match net u with
  | Returned r => (Returned r, fs, [HttpGet u])
  | Raised e => (Raised e, fs, [HttpGet u])
  end.

(** [Response.raise_for_status] of requests. *)
Definition raise_for_status (r : response) : M unit :=
  if bool_decide (400 ≤ status_code r < 500) then
    raise (Exc HTTPError (pretty (status_code r) +:+ " Client Error: " +:+
                          reason r +:+ " for url: " +:+ url r))
  else if bool_decide (500 ≤ status_code r < 600) then
    raise (Exc HTTPError (pretty (status_code r) +:+ " Server Error: " +:+
                          reason r +:+ " for url: " +:+ url r))
  else ret tt.

Definition response_json (r : response) : M webhdfs_json :=
  match json r with
  | Returned j => ret j
  | Raised e => raise e
  end.

(** [for host in hosts: blocks[host] = blocks.get(host, 0) + 1] *)
Definition count_hosts (blocks : gmap string nat) (hs : list string)
    : gmap string nat :=
  foldl (λ blocks host, <[host := (default 0 (blocks !! host) + 1)%nat]> blocks)
        blocks hs.

(** [for block in block_locations: hosts = block.get(hosts, []); ...] *)
Definition count_blocks (blocks : gmap string nat) (bls : list block_location)
    : gmap string nat :=
  foldl (λ blocks block, count_hosts blocks (default [] (hosts block)))
        blocks bls.

Definition webhdfs_url (filepath : string) : string :=
  "http://boss:9870/webhdfs/v1" +:+ filepath +:+ "?op=GETFILEBLOCKLOCATIONS".

Definition BlockLocations_try (net : webhdfs) (filepath : string)
    : M BL.BlockLocationsResp :=
  logger_info ("BlockLocations: Fetching block locations for " +:+ filepath);;
  do response <- requests_get net (webhdfs_url filepath);
  raise_for_status response;;
  do result <- response_json response;
  let block_locations :=
    default [] (BlockLocation (default (BlockLocs None) (BlockLocations_key result))) in
  let blocks := count_blocks ∅ block_locations in
  logger_info ("BlockLocations: Found " +:+ pretty (size blocks) +:+
               " datanodes with blocks");;
  ret (BL.MkBlockLocationsResp blocks "").

Definition BlockLocations (net : webhdfs) (filepath : string)
    : M BL.BlockLocationsResp :=
  try_except (BlockLocations_try net filepath)
    (λ e,
       if isinstance e Exception_ then Some (
         logger_error ("BlockLocations: Error - " +:+ exc_str e);;
         ret (BL.MkBlockLocationsResp ∅ (exc_str e)))
       else None).


(** * Vocabulary of the statements *)

(** ** Exception messages

    [str(e)] ends up in the [error] field of a response.  The messages that
    come from a collaborator are an input of the model; the statements
    about a non-empty [error] assume that these are not empty. *)

Definition message_ok (e : exc) : bool :=
  match exc_str e with
  | EmptyString => false
  | String _ _ => true
  end.

Definition env_messages_ok (env : hdfs_env) : bool :=
  match connect_fault env with Some e => message_ok e | None => true end &&
  match output_fault env with
  | Some (OpenFails e) | Some (WriteFails e _) => message_ok e
  | None => true
  end.

Definition file_message_ok (f : hfile) : bool :=
  match body f with
  | Unreadable e => message_ok e
  | Parquet _ => true
  end.

Definition files_messages_ok (fs : gmap string hfile) : bool :=
  forallb (λ kf, file_message_ok kf.2) (map_to_list fs).

(** ** The range of the mean

    numpy sums the column and divides by the number of rows in binary64.
    When the amounts are non-negative and their sum is below 2^53, every
    partial sum is an integer below 2^53, hence exact in whatever order
    they are added, and the correctly rounded quotient cannot reach the
    next integer: [int] of it is the integer quotient of [int_mean]. *)

Definition binary64_exact (t : table) : Prop :=
  Forall (λ r : row, 0 ≤ loan_amount r.1) t ∧
  sum_Z (column_loan_amount t) < 2 ^ 53.

Global Instance binary64_exact_dec t : Decision (binary64_exact t).
Proof. unfold binary64_exact. apply _. Defined.

(** ** Attempts of DbToHdfs *)

(** The first fault of an attempt, in the order of its steps. *)
Definition attempt_fault (env : attempt_env) : option exc :=
  match db_connect_fault env with
  | Some e => Some e
  | None =>
  match db_query_fault env with
  | Some e => Some e
  | None =>
  match from_pandas_fault env with
  | Some e => Some e
  | None =>
  match connect_fault (hdfs env) with
  | Some e => Some e
  | None =>
  match output_fault (hdfs env) with
  | Some (OpenFails e) | Some (WriteFails e _) => Some e
  | None => None
  end end end end end.

Fixpoint starts_with (p s : string) : bool :=
  match p with
  | EmptyString => true
  | String a p' =>
      match s with
      | EmptyString => false
      | String b s' => Ascii.eqb a b && starts_with p' s'
      end
  end.

Definition is_attempt_start (ev : event) : bool :=
  match ev with
  | Log INFO msg => starts_with "DbToHdfs: Attempt " msg
  | _ => false
  end.

Definition is_sleep (ev : event) : bool :=
  match ev with
  | Sleep _ => true
  | _ => false
  end.

(** The attempts and the sleeps of a trace, in order. *)
Definition skeleton (t : list event) : list event :=
  List.filter (λ ev, is_attempt_start ev || is_sleep ev) t.

Definition attempts (t : list event) : nat :=
  length (List.filter is_attempt_start t).

Definition sleeps (t : list event) : list Z :=
  flat_map (λ ev, match ev with Sleep s => [s] | _ => [] end) t.

Definition attempt_log (attempt : nat) : event :=
  Log INFO ("DbToHdfs: Attempt " +:+ pretty (attempt + 1)%nat).

(** [failed] attempts from number [attempt] on, each followed by a sleep
    of 10, then one last attempt. *)
Fixpoint retry_skeleton (attempt failed : nat) : list event :=
  match failed with
  | O => [attempt_log attempt]
  | S failed' =>
      attempt_log attempt :: Sleep 10 :: retry_skeleton (S attempt) failed'
  end.

Definition success_status (d : database) : StatusString :=
  MkStatusString
    ("DbToHdfs: Successfully wrote " +:+ pretty (length (query d)) +:+ " rows").

Definition error_status (e : exc) : StatusString :=
  MkStatusString
    ("ERROR: Could not complete operation after 5 attempts: " +:+ exc_str e).

(** ** Handles *)

Definition connections_opened (t : list event) : nat :=
  length (List.filter (λ ev, match ev with DbConnect => true | _ => false end) t).

Definition connections_closed (t : list event) : nat :=
  length (List.filter (λ ev, match ev with DbClose => true | _ => false end) t).

Fixpoint remove_first (p : string) (l : list string) : list string :=
  match l with
  | [] => []
  | q :: l' => if decide (p = q) then l' else q :: remove_first p l'
  end.

(** The files still open after the events [t], starting from [opened]. *)
Fixpoint files_open (t : list event) (opened : list string) : list string :=
  match t with
  | [] => opened
  | OpenInput p :: t' | OpenOutput p :: t' => files_open t' (p :: opened)
  | CloseInput p :: t' | CloseOutput p :: t' =>
      files_open t' (remove_first p opened)
  | _ :: t' => files_open t' opened
  end.

(** ** Block counters *)

(** [sum(blocks.values())] *)
Definition sum_values (blocks : gmap string nat) : nat :=
  map_fold (λ _ v acc, (v + acc)%nat) 0%nat blocks.

Definition hosts_of (b : block_location) : list string := default [] (hosts b).

(** Every replica-host entry of every block, in order: the (block, host)
    pairs of a file. *)
Definition replica_hosts (bls : list block_location) : list string :=
  flat_map hosts_of bls.

Definition block_descriptors (j : webhdfs_json) : list block_location :=
  default [] (BlockLocation (default (BlockLocs None) (BlockLocations_key j))).

(** The metadata query fails: [requests.get] raises, the status is an
    error status, or the body is not JSON. *)
Definition lookup_failed (o : outcome response) : bool :=
  match o with
  | Raised _ => true
  | Returned r =>
      bool_decide (400 ≤ status_code r < 600) ||
      match json r with Raised _ => true | Returned _ => false end
  end.

Definition lookup_messages_ok (o : outcome response) : bool :=
  match o with
  | Raised e => message_ok e
  | Returned r =>
      match json r with Raised e => message_ok e | Returned _ => true end
  end.

(** * Scenarios *)

Definition no_faults : hdfs_env := HdfsEnv None None.

Definition conventional : loan_type := LoanType 1 "Conventional".

Definition main_rows : table :=
  [ (Loan 55001 100000 1, conventional);
    (Loan 55001 140001 1, conventional);
    (Loan 55003 50000 1, conventional) ].

Definition fs_main : gmap string hfile :=
  {[ main_file_path := HFile 2 (Parquet main_rows) ]}.

(** What pyarrow raises on a file that is not parquet, and what it raises
    when no DataNode holds the blocks of a file. *)
Definition bad_magic : exc :=
  Exc ArrowInvalid
    "Parquet magic bytes not found in footer. Either the file is corrupted or this is not a parquet file.".

Definition blocks_lost : exc :=
  Exc OSError "Could not obtain block: no live nodes contain current block".

(** The name space after a first call for 55001 on [fs_main]. *)
Definition fs_cached : gmap string hfile :=
  <[ partition_path 55001 := HFile 1 (Parquet (matching 55001 main_rows)) ]>
    fs_main.

Definition fs_garbled : gmap string hfile :=
  <[ partition_path 55001 := HFile 1 (Unreadable bad_magic) ]> fs_main.

Definition fs_lost : gmap string hfile :=
  <[ partition_path 55001 := HFile 1 (Unreadable blocks_lost) ]> fs_main.

Definition attempt_ok (d : database) : attempt_env :=
  AttemptEnv None None d None no_faults.

Definition db_v1 : database :=
  Database [Loan 55001 100000 1; Loan 55001 140001 1; Loan 55003 50000 1]
           [conventional].

Definition db_v2 : database :=
  Database [Loan 55001 400000 1; Loan 55003 50000 1] [conventional].

Definition db_bounds : database :=
  Database
    [ Loan 55001 30000 1; Loan 55001 30001 1; Loan 55003 799999 1;
      Loan 55003 800000 1; Loan 55027 12 1; Loan 55027 900000 1 ]
    [ conventional ].

(** The name space after: DbToHdfs on [db_v1], CalcAvgLoan for 55001,
    DbToHdfs again on [db_v2]. *)
Definition fs_stale : gmap string hfile :=
  let '(_, fs1, _) := DbToHdfs (λ _, attempt_ok db_v1) ∅ in
  let '(_, fs2, _) := CalcAvgLoan no_faults 55001 fs1 in
  let '(_, fs3, _) := DbToHdfs (λ _, attempt_ok db_v2) fs2 in
  fs3.

Definition query_fails : attempt_env :=
  AttemptEnv None
    (Some (Exc Exception_
       "(mysql.connector.errors.ProgrammingError) 1146 (42S02): Table 'CS544.loans' doesn't exist"))
    db_v1 None no_faults.

(** The query fails on the first attempt and works from the second on. *)
Definition query_fails_once (attempt : nat) : attempt_env :=
  if (attempt =? 0)%nat then query_fails else attempt_ok db_v1.

Definition not_found (u : string) : outcome response :=
  Returned (Response 404 "Not Found" u (Returned (WebHdfsJson None))).

Definition two_blocks : webhdfs_json :=
  WebHdfsJson (Some (BlockLocs (Some
    [ BlockLoc (Some ["dn1"; "dn2"]); BlockLoc (Some ["dn2"; "dn3"]) ]))).

Definition net_two_blocks : webhdfs := λ u,
  if bool_decide (u = webhdfs_url "/hdma-wi-2021.parquet")
  then Returned (Response 200 "OK" u (Returned two_blocks))
  else not_found u.

(** * Further vocabulary and scenarios *)

(** Requests served one after the other: each call runs on the name space
    the call before it left. *)
Fixpoint CalcAvgLoan_calls (calls : list (hdfs_env * Z))
    : M (list CalcAvgLoanResp) :=
  match calls with
  | [] => ret []
  | (env, key) :: rest =>
      do resp <- CalcAvgLoan env key;
      do resps <- CalcAvgLoan_calls rest;
      ret (resp :: resps)
  end.

(** Every readable partition file holds the rows of [main] for its key. *)
Definition cache_consistent (main : table) (fs : gmap string hfile) : Prop :=
  ∀ key r rows,
    fs !! partition_path key = Some (HFile r (Parquet rows)) →
    rows = matching key main.

(** A [write_table] that fails does not leave a readable parquet file. *)
Definition clean_write_failure (env : hdfs_env) : bool :=
  match output_fault env with
  | Some (WriteFails _ (Parquet _)) => false
  | _ => true
  end.

Definition write_not_interrupted (env : hdfs_env) : bool :=
  match output_fault env with
  | Some (WriteFails _ _) => false
  | _ => true
  end.

Definition mean_of (rows : table) : Z :=
  sum_Z (column_loan_amount rows) ÷ Z.of_nat (length rows).

(** The county codes that performance_analyzer.py measures, each requested
    twice in a row. *)
Definition COUNTY_CODES : list Z := [55001; 55003; 55027; 55059; 55133].

Definition twice (keys : list Z) : list Z := flat_map (λ k, [k; k]) keys.

Definition analyzer_rows : table :=
  [ (Loan 55001 100000 1, conventional); (Loan 55003 50000 1, conventional);
    (Loan 55027 250000 1, conventional); (Loan 55001 140001 1, conventional);
    (Loan 55059 31000 1, conventional); (Loan 55133 700000 1, conventional) ].

Definition fs_analyzer : gmap string hfile :=
  {[ main_file_path := HFile 2 (Parquet analyzer_rows) ]}.


(** Every loan names exactly one loan type: the ids of [loan_types] are
    distinct and each [loan_type_id] is one of them. *)
Definition loan_types_resolve (d : database) : Prop :=
  NoDup (map id (loan_types d)) ∧
  Forall (λ l, ∃ ty, ty ∈ loan_types d ∧ loan_type_id l = id ty) (loans d).

Definition db_down : attempt_env :=
  AttemptEnv (Some (Exc Exception_ "Can't connect to MySQL server on 'mysql:3306' (111)"))
             None db_v1 None no_faults.

(** The blocks that list [h] among their replica hosts. *)
Definition blocks_on (h : string) (bls : list block_location)
    : list block_location :=
  filter (λ b, h ∈ hosts_of b) bls.

Definition no_block_keys : webhdfs_json := WebHdfsJson None.

Definition net_no_keys : webhdfs := λ u,
  Returned (Response 200 "OK" u (Returned no_block_keys)).

(** How many times a trace opens MainDataset for reading. *)
Definition main_scans (t : list event) : nat :=
  length (List.filter
            (λ ev, match ev with
                   | OpenInput p => bool_decide (p = main_file_path)
                   | _ => false
                   end) t).

(** * Proofs *)

Local Arguments pretty : simpl never.

Lemma isinstance_Exception e : isinstance e Exception_ = true.
Proof. by destruct e as [[] ?]. Qed.

Lemma message_ok_nonempty e : message_ok e = true → exc_str e ≠ "".
Proof. unfold message_ok. by destruct (exc_str e). Qed.

Lemma append_nonempty s c s' : s +:+ String c s' ≠ "".
Proof. by destruct s. Qed.

(** Unfolding of the handlers down to matches on the inputs. *)
Tactic Notation "unfold_handlers" "in" hyp(H) :=
  unfold CalcAvgLoan, CalcAvgLoan_try, read_partition,
    DbToHdfs_iteration, DbToHdfs_try, engine_connect, pd_read_sql,
    conn_close, from_pandas, time_sleep, with_input_file,
    open_input_file, with_output_stream, HadoopFileSystem, try_except,
    finally, bind, ret, raise, emit, logger_info, logger_warning,
    logger_error, read_table, int_mean in H.

Tactic Notation "unfold_handlers" :=
  unfold CalcAvgLoan, CalcAvgLoan_try, read_partition,
    DbToHdfs_iteration, DbToHdfs_try, engine_connect, pd_read_sql,
    conn_close, from_pandas, time_sleep, with_input_file,
    open_input_file, with_output_stream, HadoopFileSystem, try_except,
    finally, bind, ret, raise, emit, logger_info, logger_warning,
    logger_error, read_table.

(** Split on the innermost scrutinee of the matches of [H], again and
    again, until [H] is an equation between results. *)
Ltac case_split H :=
  repeat (rewrite ?isinstance_Exception in H; simpl in H;
    match type of H with
    | context [match ?x with _ => _ end] =>
        match x with
        | context [match _ with _ => _ end] => fail 1
        | _ => destruct x eqn:?
        end
    end); rewrite ?isinstance_Exception in H; simpl in H.

(** ** CalcAvgLoan *)

Section calc_avg_loan.
Implicit Types (env : hdfs_env) (key : Z) (fs : gmap string hfile).
Implicit Types (rows : table) (resp : CalcAvgLoanResp) (t : list event).

Lemma int_mean_cons (tb : table) z l :
  column_loan_amount tb = z :: l →
  (z + sum_Z l) ÷ Z.of_nat (S (length l)) =
  sum_Z (column_loan_amount tb) ÷ Z.of_nat (length tb).
Proof.
  intros E. rewrite <- (length_map (λ r : row, loan_amount r.1) tb).
  fold (column_loan_amount tb). by rewrite E.
Qed.

Lemma column_nonempty (tb : table) z l :
  column_loan_amount tb = z :: l → tb ≠ [].
Proof. by destruct tb. Qed.

Lemma int_mean_nonempty (tb : table) fs :
  tb ≠ [] →
  int_mean (column_loan_amount tb) fs =
  (Returned (sum_Z (column_loan_amount tb) ÷ Z.of_nat (length tb)), fs, []).
Proof.
  intros Ht. destruct tb as [|r tb]; [done|].
  unfold int_mean, column_loan_amount, ret. simpl. by rewrite length_map.
Qed.

(** What a response with source create or recreate says about the call. *)
Lemma CalcAvgLoan_miss_inv env key fs resp fs1 t1 :
  CalcAvgLoan env key fs = (Returned resp, fs1, t1) →
  source resp = "create" ∨ source resp = "recreate" →
  ∃ repl rows,
    fs !! main_file_path = Some (HFile repl (Parquet rows)) ∧
    matching key rows ≠ [] ∧
    avg_loan resp = sum_Z (column_loan_amount (matching key rows)) ÷
                    Z.of_nat (length (matching key rows)) ∧
    error resp = "" ∧
    fs1 = <[partition_path key := HFile 1 (Parquet (matching key rows))]> fs ∧
    connect_fault env = None ∧ output_fault env = None.
Proof.
  intros H Hs. unfold_handlers in H. case_split H.
  all: try discriminate.
  all: inversion H; subst; simpl in Hs; try (destruct Hs; discriminate).
  all: match goal with
       | Hm : _ !! main_file_path = Some ?h, Hb : body ?h = Parquet ?t |- _ =>
           destruct h as [repl ?]; simpl in Hb; subst; exists repl, t
       end.
  all: simpl; repeat split; eauto using column_nonempty, int_mean_cons.
Qed.

(** What a response with source reuse says about the call. *)
Lemma CalcAvgLoan_reuse_inv env key fs resp fs1 t1 :
  CalcAvgLoan env key fs = (Returned resp, fs1, t1) →
  source resp = "reuse" →
  ∃ repl rows,
    fs !! partition_path key = Some (HFile repl (Parquet rows)) ∧
    rows ≠ [] ∧
    avg_loan resp = sum_Z (column_loan_amount rows) ÷ Z.of_nat (length rows) ∧
    error resp = "" ∧ fs1 = fs ∧ connect_fault env = None.
Proof.
  intros H Hs. unfold_handlers in H. case_split H.
  all: try discriminate.
  all: inversion H; subst; simpl in Hs; try discriminate.
  all: match goal with
       | Hm : _ !! partition_path _ = Some ?h, Hb : body ?h = Parquet ?t |- _ =>
           destruct h as [repl ?]; simpl in Hb; subst; exists repl, t
       end.
  all: simpl; repeat split; eauto using column_nonempty, int_mean_cons.
Qed.

(** A readable, non-empty partition file is reused. *)
Lemma CalcAvgLoan_reuse env key fs repl rows :
  connect_fault env = None →
  fs !! partition_path key = Some (HFile repl (Parquet rows)) →
  rows ≠ [] →
  ∃ t, CalcAvgLoan env key fs =
       (Returned (MkCalcAvgLoanResp
                    (sum_Z (column_loan_amount rows) ÷ Z.of_nat (length rows))
                    "reuse" ""), fs, t).
Proof.
  intros Hc Hp Hrows. unfold_handlers. rewrite Hc. simpl. rewrite Hp. simpl.
  rewrite (int_mean_nonempty _ _ Hrows). eexists. reflexivity.
Qed.

(** The partition read falls through with [src]; the main file is then
    scanned and the partition written. *)
Lemma CalcAvgLoan_fallthrough env key fs src t0 repl rows :
  connect_fault env = None →
  output_fault env = None →
  read_partition key fs = (Returned (inr src), fs, t0) →
  fs !! main_file_path = Some (HFile repl (Parquet rows)) →
  matching key rows ≠ [] →
  ∃ t, CalcAvgLoan env key fs =
       (Returned (MkCalcAvgLoanResp
                    (sum_Z (column_loan_amount (matching key rows)) ÷
                     Z.of_nat (length (matching key rows)))
                    src ""),
        <[partition_path key := HFile 1 (Parquet (matching key rows))]> fs, t).
Proof.
  intros Hc Ho Hr Hm Hrows.
  unfold CalcAvgLoan, CalcAvgLoan_try, try_except, bind, HadoopFileSystem.
  rewrite Hc. unfold ret at 1. rewrite Hr.
  unfold logger_info, emit, with_input_file, open_input_file, bind, finally,
    read_table, ret. rewrite Hm. simpl.
  rewrite (int_mean_nonempty _ _ Hrows).
  unfold with_output_stream. rewrite Ho. eexists. reflexivity.
Qed.

Lemma read_partition_oserror key fs repl e :
  fs !! partition_path key = Some (HFile repl (Unreadable e)) →
  isinstance e FileNotFoundError = false →
  isinstance e OSError = true →
  ∃ t, read_partition key fs = (Returned (inr "recreate"), fs, t).
Proof.
  intros Hp Hf Ho. unfold_handlers. simpl. rewrite Hp. simpl.
  rewrite Hf, Ho. simpl. eexists. reflexivity.
Qed.

Lemma files_messages_ok_lookup fs p h e :
  files_messages_ok fs = true → fs !! p = Some h → body h = Unreadable e →
  exc_str e ≠ "".
Proof.
  unfold files_messages_ok. rewrite forallb_forall. intros Hall Hp Hb.
  apply message_ok_nonempty.
  specialize (Hall (p, h)). unfold file_message_ok in Hall. simpl in Hall.
  rewrite Hb in Hall. apply Hall. apply list_elem_of_In.
  by apply elem_of_map_to_list.
Qed.

(** Whatever the body of the outer [try] raises carries a message. *)
Lemma CalcAvgLoan_try_raised_message env key fs e fs' t :
  env_messages_ok env = true → files_messages_ok fs = true →
  CalcAvgLoan_try env key fs = (Raised e, fs', t) → exc_str e ≠ "".
Proof.
  intros Henv Hfs H. unfold env_messages_ok in Henv.
  apply andb_true_iff in Henv as [Hc Ho].
  unfold_handlers in H. case_split H.
  all: try discriminate.
  all: inversion H; subst; clear H.
  all: try done.
  all: try (by apply message_ok_nonempty).
  all: try (eapply files_messages_ok_lookup; by eauto).
Qed.

Lemma CalcAvgLoan_never_raises env key fs :
  ∃ resp fs' t, CalcAvgLoan env key fs = (Returned resp, fs', t).
Proof.
  unfold CalcAvgLoan, try_except.
  destruct (CalcAvgLoan_try env key fs) as [[[resp|e] fs'] t]; [by eauto|].
  rewrite isinstance_Exception. simpl. by eauto.
Qed.

(** Every file that a call opens is closed when the call returns. *)
Lemma CalcAvgLoan_closes_files env key fs o fs' t :
  CalcAvgLoan env key fs = (o, fs', t) → files_open t [] = [].
Proof.
  intros H. unfold_handlers in H. case_split H.
  all: inversion H; subst; clear H.
  all: cbn [files_open remove_first]; rewrite ?decide_True by done; done.
Qed.

End calc_avg_loan.

(** C1: if a first CalcAvgLoan call for a key returns with source create,
    a second call for the same key, on the name space the first call left
    and with the same collaborators, returns the same average with source
    reuse (and leaves the name space as it is). *)
Theorem C1_create_then_reuse env key fs resp fs1 t1 :
  CalcAvgLoan env key fs = (Returned resp, fs1, t1) →
  source resp = "create" →
  ∃ t2, CalcAvgLoan env key fs1 =
        (Returned (MkCalcAvgLoanResp (avg_loan resp) "reuse" ""), fs1, t2).
Proof.
  intros H Hs.
  destruct (CalcAvgLoan_miss_inv env key fs resp fs1 t1 H (or_introl Hs))
    as (repl & rows & Hm & Hrows & Havg & _ & Hfs1 & Hc & _).
  rewrite Havg.
  apply CalcAvgLoan_reuse with (repl := 1); [done| |done].
  rewrite Hfs1. apply lookup_insert_eq.
Qed.

Lemma C1_witness :
  ∃ t2, CalcAvgLoan no_faults 55001 (CalcAvgLoan no_faults 55001 fs_main).1.2 =
        (Returned (MkCalcAvgLoanResp 120000 "reuse" ""),
         (CalcAvgLoan no_faults 55001 fs_main).1.2, t2).
Proof.
  apply (C1_create_then_reuse no_faults 55001 fs_main
           (MkCalcAvgLoanResp 120000 "create" "")
           (CalcAvgLoan no_faults 55001 fs_main).1.2
           (CalcAvgLoan no_faults 55001 fs_main).2);
    vm_compute; reflexivity.
Defined.

(** The scenario of the specification: 120 rows of county 55001 that sum
    to 14,400,000 give 120000 with source create on the first call. *)
Example spec_scenario_55001 :
  (CalcAvgLoan no_faults 55001
     {[ main_file_path :=
          HFile 2 (Parquet (replicate 120 (Loan 55001 120000 1, conventional))) ]}).1.1 =
  Returned (MkCalcAvgLoanResp 120000 "create" "").
Proof. vm_compute. reflexivity. Qed.

(** The mean 100000.66... becomes 100000: truncated, not rounded. *)
Example mean_is_truncated :
  (int_mean [100000; 100001; 100001] ∅).1.1 = Returned 100000.
Proof. vm_compute. reflexivity. Qed.

(** After MainDataset is rewritten, the partition written before is still
    reused: the average is the one of the old rows. *)
Lemma stale_reuse :
  fs_stale !! main_file_path =
    Some (HFile 2 (Parquet [(Loan 55001 400000 1, conventional);
                            (Loan 55003 50000 1, conventional)])) ∧
  (CalcAvgLoan no_faults 55001 fs_stale).1 =
    (Returned (MkCalcAvgLoanResp 120000 "reuse" ""), fs_stale).
Proof. split; vm_compute; reflexivity. Qed.

(** C2 as stated fails: the average of a reused partition need not be the
    truncated mean over the matching rows of MainDataset.  In [fs_stale]
    MainDataset holds one row of county 55001, of amount 400000, and the
    call answers 120000 with source reuse. *)
Lemma C2_counterexample :
  ¬ (∀ env key fs repl rows resp fs' t,
       fs !! main_file_path = Some (HFile repl (Parquet rows)) →
       matching key rows ≠ [] →
       CalcAvgLoan env key fs = (Returned resp, fs', t) →
       source resp = "create" ∨ source resp = "reuse" ∨ source resp = "recreate" →
       avg_loan resp =
         sum_Z (column_loan_amount (matching key rows)) ÷
         Z.of_nat (length (matching key rows))).
Proof.
  intros claim.
  destruct stale_reuse as [Hm Hr].
  destruct (CalcAvgLoan no_faults 55001 fs_stale) as [[o fs'] t] eqn:E.
  simpl in Hr. injection Hr as -> ->.
  assert (Hne : matching 55001 [(Loan 55001 400000 1, conventional);
                                (Loan 55003 50000 1, conventional)] ≠ [])
    by (vm_compute; discriminate).
  pose proof (claim _ _ _ _ _ _ _ _ Hm Hne E (or_intror (or_introl eq_refl)))
    as Habs.
  vm_compute in Habs. discriminate.
Qed.

(** [int] rounds the mean toward zero: for a non-negative sum the result
    is the floor of the exact quotient. *)
Lemma int_mean_truncates xs a fs fs' t :
  int_mean xs fs = (Returned a, fs', t) →
  0 ≤ sum_Z xs →
  Z.of_nat (length xs) * a ≤ sum_Z xs < Z.of_nat (length xs) * (a + 1).
Proof.
  unfold int_mean. destruct xs as [|x xs]; [done|].
  unfold ret. intros [= <- _ _] Hsum.
  change (sum_Z (x :: xs)) with (x + sum_Z xs) in *. cbn [length].
  set (s := x + sum_Z xs) in *. set (n := Z.of_nat (S (length xs))).
  assert (0 < n) by (unfold n; lia).
  rewrite Z.quot_div_nonneg by lia.
  pose proof (Z.mul_div_le s n). pose proof (Z.mul_succ_div_gt s n). lia.
Qed.

(** C2 (amended): with MainDataset readable, and the amounts of the rows
    that are averaged non-negative with a sum below 2^53 (those of the
    MainDataset rows of the key, and those of the partition file of the key
    when it is readable), an average returned with
    source create or recreate is the sum of loan_amount over the rows of
    MainDataset whose county_code is the key, divided by their number and
    truncated, and there is at least one such row; an average returned with
    source reuse is that truncated quotient over the rows of the partition
    file, hence the MainDataset figure whenever the partition file holds
    exactly the matching rows of MainDataset. *)
Theorem C2_truncated_mean env key fs repl rows resp fs' t :
  fs !! main_file_path = Some (HFile repl (Parquet rows)) →
  binary64_exact (matching key rows) →
  (∀ r prows, fs !! partition_path key = Some (HFile r (Parquet prows)) →
              binary64_exact prows) →
  CalcAvgLoan env key fs = (Returned resp, fs', t) →
  (source resp = "create" ∨ source resp = "recreate" →
     matching key rows ≠ [] ∧
     avg_loan resp =
       sum_Z (column_loan_amount (matching key rows)) ÷
       Z.of_nat (length (matching key rows))) ∧
  (source resp = "reuse" →
     ∃ r prows,
       fs !! partition_path key = Some (HFile r (Parquet prows)) ∧
       prows ≠ [] ∧
       avg_loan resp =
         sum_Z (column_loan_amount prows) ÷ Z.of_nat (length prows) ∧
       (prows = matching key rows →
          avg_loan resp =
            sum_Z (column_loan_amount (matching key rows)) ÷
            Z.of_nat (length (matching key rows)))).
Proof.
  intros Hm _ _ H. split; intros Hs.
  - destruct (CalcAvgLoan_miss_inv _ _ _ _ _ _ H Hs)
      as (repl' & rows' & Hm' & Hrows & Havg & _).
    rewrite Hm in Hm'. by simplify_eq.
  - destruct (CalcAvgLoan_reuse_inv _ _ _ _ _ _ H Hs)
      as (r & prows & Hp & Hne & Havg & _).
    exists r, prows. repeat split; try done. by intros <-.
Qed.

Lemma C2_witness :
  (source (MkCalcAvgLoanResp 120000 "reuse" "") = "create" ∨
   source (MkCalcAvgLoanResp 120000 "reuse" "") = "recreate" →
     matching 55001 main_rows ≠ [] ∧
     avg_loan (MkCalcAvgLoanResp 120000 "reuse" "") =
       sum_Z (column_loan_amount (matching 55001 main_rows)) ÷
       Z.of_nat (length (matching 55001 main_rows))) ∧
  (source (MkCalcAvgLoanResp 120000 "reuse" "") = "reuse" →
     ∃ r prows,
       fs_cached !! partition_path 55001 = Some (HFile r (Parquet prows)) ∧
       prows ≠ [] ∧
       avg_loan (MkCalcAvgLoanResp 120000 "reuse" "") =
         sum_Z (column_loan_amount prows) ÷ Z.of_nat (length prows) ∧
       (prows = matching 55001 main_rows →
          avg_loan (MkCalcAvgLoanResp 120000 "reuse" "") =
            sum_Z (column_loan_amount (matching 55001 main_rows)) ÷
            Z.of_nat (length (matching 55001 main_rows)))).
Proof.
  apply (C2_truncated_mean no_faults 55001 fs_cached 2 main_rows
           (MkCalcAvgLoanResp 120000 "reuse" "")
           (CalcAvgLoan no_faults 55001 fs_cached).1.2
           (CalcAvgLoan no_faults 55001 fs_cached).2).
  - vm_compute. reflexivity.
  - compute_done.
  - intros r prows Hp. unfold fs_cached in Hp.
    rewrite lookup_insert_eq in Hp. injection Hp as _ <-.
    compute_done.
  - vm_compute. reflexivity.
Defined.

(** A partition file whose content is not parquet: the read raises
    ArrowInvalid, which no clause of the inner [try] matches. *)
Lemma garbled_partition :
  (CalcAvgLoan no_faults 55001 fs_garbled).1 =
  (Returned (MkCalcAvgLoanResp 0 "" (exc_str bad_magic)), fs_garbled).
Proof. vm_compute. reflexivity. Qed.

(** C3 as stated fails: a partition file that exists and whose read fails
    for a reason other than not-found does not always give source recreate.
    The read of [fs_garbled] raises an exception that is not an OSError and
    the call returns the error response. *)
Lemma C3_counterexample :
  ¬ (∀ env key fs r e repl rows,
       fs !! partition_path key = Some (HFile r (Unreadable e)) →
       isinstance e FileNotFoundError = false →
       fs !! main_file_path = Some (HFile repl (Parquet rows)) →
       matching key rows ≠ [] →
       connect_fault env = None →
       output_fault env = None →
       ∃ resp fs' t,
         CalcAvgLoan env key fs = (Returned resp, fs', t) ∧
         source resp = "recreate").
Proof.
  intros claim.
  destruct (claim no_faults 55001 fs_garbled 1 bad_magic 2 main_rows)
    as (resp & fs' & t & H & Hs); try (vm_compute; done).
  pose proof garbled_partition as G. rewrite H in G. simpl in G.
  injection G as -> _. discriminate.
Qed.

(** C3 (amended): when the read of an existing partition file raises an
    OSError other than FileNotFoundError, MainDataset is readable with at
    least one row for the key, the amounts of its rows for the key are
    non-negative with a sum below 2^53, and HDFS accepts the write, the
    call returns
    source recreate with the truncated mean over the matching rows of
    MainDataset, the partition file then holds exactly those rows, and the
    next call for the key returns the same average with source reuse. *)
Theorem C3_recreate_on_io_error env key fs r e repl rows :
  fs !! partition_path key = Some (HFile r (Unreadable e)) →
  isinstance e OSError = true →
  isinstance e FileNotFoundError = false →
  fs !! main_file_path = Some (HFile repl (Parquet rows)) →
  matching key rows ≠ [] →
  binary64_exact (matching key rows) →
  connect_fault env = None →
  output_fault env = None →
  let avg := sum_Z (column_loan_amount (matching key rows)) ÷
             Z.of_nat (length (matching key rows)) in
  let fs' := <[partition_path key := HFile 1 (Parquet (matching key rows))]> fs in
  (∃ t, CalcAvgLoan env key fs =
        (Returned (MkCalcAvgLoanResp avg "recreate" ""), fs', t)) ∧
  (∃ t, CalcAvgLoan env key fs' =
        (Returned (MkCalcAvgLoanResp avg "reuse" ""), fs', t)).
Proof.
  intros Hp Ho Hf Hm Hrows _ Hc Hw avg fs'. split.
  - destruct (read_partition_oserror key fs r e Hp Hf Ho) as [t0 Hr].
    by eapply CalcAvgLoan_fallthrough.
  - apply CalcAvgLoan_reuse with (repl := 1); [done| |done].
    apply lookup_insert_eq.
Qed.

Lemma C3_witness :
  (∃ t, CalcAvgLoan no_faults 55001 fs_lost =
        (Returned (MkCalcAvgLoanResp 120000 "recreate" ""),
         <[partition_path 55001 := HFile 1 (Parquet (matching 55001 main_rows))]>
           fs_lost, t)) ∧
  (∃ t, CalcAvgLoan no_faults 55001
          (<[partition_path 55001 := HFile 1 (Parquet (matching 55001 main_rows))]>
             fs_lost) =
        (Returned (MkCalcAvgLoanResp 120000 "reuse" ""),
         <[partition_path 55001 := HFile 1 (Parquet (matching 55001 main_rows))]>
           fs_lost, t)).
Proof.
  apply (C3_recreate_on_io_error no_faults 55001 fs_lost 1 blocks_lost 2
           main_rows);
    first [vm_compute; done | compute_done].
Defined.

(** C4: CalcAvgLoan never raises, and whenever the body of its outer [try]
    raises an exception (one that the inner clauses did not absorb, such as
    MainDataset missing) the call returns average 0, an empty source and
    [str(e)] as error, which is not empty as long as the messages of the
    collaborators are not. *)
Theorem C4_unexpected_error env key fs :
  env_messages_ok env = true → files_messages_ok fs = true →
  (∃ resp fs' t, CalcAvgLoan env key fs = (Returned resp, fs', t)) ∧
  (∀ e fs' t,
     CalcAvgLoan_try env key fs = (Raised e, fs', t) →
     exc_str e ≠ "" ∧
     ∃ t', CalcAvgLoan env key fs =
           (Returned (MkCalcAvgLoanResp 0 "" (exc_str e)), fs', t')).
Proof.
  intros Henv Hfs. split; [apply CalcAvgLoan_never_raises|].
  intros e fs' t H. split; [by eapply CalcAvgLoan_try_raised_message|].
  unfold CalcAvgLoan, try_except. rewrite H, isinstance_Exception. simpl.
  eexists. reflexivity.
Qed.

Lemma C4_witness :
  (∃ resp fs' t, CalcAvgLoan no_faults 55001 ∅ = (Returned resp, fs', t)) ∧
  (∀ e fs' t,
     CalcAvgLoan_try no_faults 55001 ∅ = (Raised e, fs', t) →
     exc_str e ≠ "" ∧
     ∃ t', CalcAvgLoan no_faults 55001 ∅ =
           (Returned (MkCalcAvgLoanResp 0 "" (exc_str e)), fs', t')).
Proof. apply (C4_unexpected_error no_faults 55001 ∅); reflexivity. Defined.

(** MainDataset missing: the response carries the message of the
    FileNotFoundError of the main file. *)
Example main_dataset_missing :
  (CalcAvgLoan no_faults 55001 ∅).1 =
  (Returned (MkCalcAvgLoanResp 0 ""
     "[Errno 2] Opening HDFS file '/hdma-wi-2021.parquet' failed. Detail: [errno 2] No such file or directory"),
   ∅).
Proof. vm_compute. reflexivity. Qed.

(** C10: for a key with no row in MainDataset and no partition file, the
    call completes with average 0, an empty source and the message of the
    failed conversion of NaN as error; no partition file is written. *)
Theorem C10_zero_rows env key fs repl rows :
  connect_fault env = None →
  fs !! partition_path key = None →
  fs !! main_file_path = Some (HFile repl (Parquet rows)) →
  matching key rows = [] →
  ∃ t, CalcAvgLoan env key fs =
       (Returned (MkCalcAvgLoanResp 0 "" "cannot convert float NaN to integer"),
        fs, t) ∧
       error (MkCalcAvgLoanResp 0 "" "cannot convert float NaN to integer") ≠ "".
Proof.
  intros Hc Hp Hm Hrows. unfold_handlers. rewrite Hc. simpl. rewrite Hp. simpl.
  rewrite Hm. simpl. rewrite Hrows. simpl. eexists. split; [reflexivity|done].
Qed.

Lemma C10_witness :
  ∃ t, CalcAvgLoan no_faults 55027 fs_main =
       (Returned (MkCalcAvgLoanResp 0 "" "cannot convert float NaN to integer"),
        fs_main, t) ∧
       error (MkCalcAvgLoanResp 0 "" "cannot convert float NaN to integer") ≠ "".
Proof.
  apply (C10_zero_rows no_faults 55027 fs_main 2 main_rows);
    vm_compute; reflexivity.
Defined.

(** ** DbToHdfs *)

Section db_to_hdfs.
Implicit Types (env : attempt_env) (envs : nat → attempt_env).
Implicit Types (fs : gmap string hfile) (t : list event).

Lemma skeleton_app t1 t2 : skeleton (t1 ++ t2) = skeleton t1 ++ skeleton t2.
Proof. apply List.filter_app. Qed.

(** An attempt without a fault returns the success status and leaves the
    result of the query in the main file. *)
Lemma DbToHdfs_iteration_ok env k fs :
  attempt_fault env = None →
  ∃ t, DbToHdfs_iteration env k fs =
       (Returned (inl (success_status (db env))),
        <[main_file_path := HFile 2 (Parquet (query (db env)))]> fs, t) ∧
       skeleton t = [attempt_log k].
Proof.
  unfold attempt_fault. intros H.
  destruct (db_connect_fault env) eqn:E1; [done|].
  destruct (db_query_fault env) eqn:E2; [done|].
  destruct (from_pandas_fault env) eqn:E3; [done|].
  destruct (connect_fault (hdfs env)) eqn:E4; [done|].
  destruct (output_fault (hdfs env)) as [[]|] eqn:E5; [done..|].
  unfold_handlers. rewrite E1, E2, E3, E4, E5. simpl.
  eexists. split; reflexivity.
Qed.

(** A failed attempt sleeps and goes on when attempts remain, and returns
    the error status when it was the last one. *)
Lemma DbToHdfs_iteration_fail env k fs e :
  attempt_fault env = Some e →
  ∃ fs' t, DbToHdfs_iteration env k fs =
       (Returned (if (k <? max_retries - 1)%nat then inr tt
                  else inl (error_status e)), fs', t) ∧
       skeleton t = attempt_log k ::
                    (if (k <? max_retries - 1)%nat then [Sleep 10] else []).
Proof.
  unfold attempt_fault. intros H.
  unfold_handlers.
  destruct (db_connect_fault env) eqn:E1;
    [|destruct (db_query_fault env) eqn:E2;
      [|destruct (from_pandas_fault env) eqn:E3;
        [|destruct (connect_fault (hdfs env)) eqn:E4;
          [|destruct (output_fault (hdfs env)) as [[]|] eqn:E5]]]];
    simplify_eq; rewrite ?isinstance_Exception;
    destruct (k <? max_retries - 1)%nat; simpl;
    rewrite ?isinstance_Exception; simpl;
    eexists _, _; split; reflexivity.
Qed.

Lemma DbToHdfs_loop_first_success envs :
  ∀ m k fs j,
    (k + m = max_retries)%nat → (j < m)%nat →
    (∀ i, (k ≤ i < k + j)%nat → attempt_fault (envs i) ≠ None) →
    attempt_fault (envs (k + j)%nat) = None →
    ∃ fs0 t,
      DbToHdfs_loop envs (seq k m) fs =
        (Returned (Some (success_status (db (envs (k + j)%nat)))),
         <[main_file_path :=
             HFile 2 (Parquet (query (db (envs (k + j)%nat))))]> fs0, t) ∧
      skeleton t = retry_skeleton k j.
Proof.
  induction m as [|m IH]; intros k fs j Hkm Hj Hfail Hok; [lia|].
  simpl. unfold bind at 1.
  destruct j as [|j].
  - rewrite Nat.add_0_r in Hok.
    destruct (DbToHdfs_iteration_ok (envs k) k fs Hok) as (t & -> & Hsk).
    unfold ret. rewrite Nat.add_0_r.
    eexists fs, _. split; [reflexivity|].
    by rewrite app_nil_r.
  - destruct (attempt_fault (envs k)) as [e|] eqn:Hk;
      [|exfalso; apply (Hfail k); [lia|done]].
    destruct (DbToHdfs_iteration_fail (envs k) k fs e Hk) as (fs1 & t1 & -> & Hsk).
    assert (Hlt : (k <? max_retries - 1)%nat = true)
      by (apply Nat.ltb_lt; unfold max_retries in *; lia).
    rewrite Hlt in Hsk |- *.
    destruct (IH (S k) fs1 j) as (fs0 & t2 & -> & Hsk2).
    + lia.
    + lia.
    + intros i Hi. apply Hfail. lia.
    + by replace (S k + j)%nat with (k + S j)%nat by lia.
    + replace (S k + j)%nat with (k + S j)%nat by lia.
      eexists fs0, _. split; [reflexivity|].
      rewrite skeleton_app, Hsk, Hsk2. reflexivity.
Qed.

Lemma DbToHdfs_loop_exhausted envs :
  ∀ m k fs,
    (k + S m = max_retries)%nat →
    (∀ i, (k ≤ i < max_retries)%nat → attempt_fault (envs i) ≠ None) →
    ∃ e fs' t,
      attempt_fault (envs (max_retries - 1)%nat) = Some e ∧
      DbToHdfs_loop envs (seq k (S m)) fs =
        (Returned (Some (error_status e)), fs', t) ∧
      skeleton t = retry_skeleton k m.
Proof.
  induction m as [|m IH]; intros k fs Hkm Hfail.
  - assert (k = max_retries - 1)%nat as -> by lia.
    destruct (attempt_fault (envs (max_retries - 1)%nat)) as [e|] eqn:Hk;
      [|exfalso; apply (Hfail (max_retries - 1)%nat);
        [unfold max_retries; lia|done]].
    destruct (DbToHdfs_iteration_fail _ (max_retries - 1)%nat fs e Hk)
      as (fs1 & t1 & Hit & Hsk).
    exists e, fs1, (t1 ++ []). split; [done|]. split.
    + simpl. unfold bind at 1. simpl in Hit. rewrite Hit. reflexivity.
    + rewrite app_nil_r, Hsk. reflexivity.
  - destruct (attempt_fault (envs k)) as [e|] eqn:Hk;
      [|exfalso; apply (Hfail k); [unfold max_retries in *; lia|done]].
    destruct (DbToHdfs_iteration_fail (envs k) k fs e Hk) as (fs1 & t1 & Hit & Hsk).
    assert (Hlt : (k <? max_retries - 1)%nat = true)
      by (apply Nat.ltb_lt; unfold max_retries in *; lia).
    rewrite Hlt in Hsk, Hit.
    destruct (IH (S k) fs1) as (e' & fs' & t2 & He' & Hloop & Hsk2).
    + lia.
    + intros i Hi. apply Hfail. lia.
    + exists e', fs', (t1 ++ t2). split; [done|]. split.
      * change (seq k (S (S m))) with (k :: seq (S k) (S m)).
        cbn [DbToHdfs_loop]. unfold bind at 1. rewrite Hit, Hloop. reflexivity.
      * rewrite skeleton_app, Hsk, Hsk2. reflexivity.
Qed.

(** Either some attempt below [n] is the first to succeed, or all fail. *)
Lemma first_success_or_all_fail envs n :
  (∃ j, (j < n)%nat ∧ attempt_fault (envs j) = None ∧
        ∀ i, (i < j)%nat → attempt_fault (envs i) ≠ None) ∨
  (∀ i, (i < n)%nat → attempt_fault (envs i) ≠ None).
Proof.
  induction n as [|n [(j & Hj & Hok & Hbefore)|Hall]].
  - right. intros i Hi. lia.
  - left. exists j. split; [lia|done].
  - destruct (attempt_fault (envs n)) as [e|] eqn:Hn.
    + right. intros i Hi. destruct (decide (i = n)) as [->|]; [by rewrite Hn|].
      apply Hall. lia.
    + left. exists n. split; [lia|]. split; [done|]. intros i Hi. by apply Hall.
Qed.

Lemma attempts_skeleton t : attempts (skeleton t) = attempts t.
Proof.
  unfold attempts, skeleton. induction t as [|ev t IH]; [done|].
  simpl. destruct (is_attempt_start ev) eqn:E; simpl; rewrite ?E; simpl.
  - by rewrite IH.
  - destruct (is_sleep ev); simpl; rewrite ?E; done.
Qed.

Lemma sleeps_skeleton t : sleeps (skeleton t) = sleeps t.
Proof.
  unfold sleeps, skeleton. induction t as [|ev t IH]; [done|].
  cbn [List.filter flat_map].
  destruct (is_attempt_start ev || is_sleep ev) eqn:E;
    cbn [flat_map]; rewrite IH; [done|].
  by destruct ev.
Qed.

Lemma attempts_retry_skeleton j : ∀ k, attempts (retry_skeleton k j) = S j.
Proof.
  induction j as [|j IH]; intros k; [done|].
  specialize (IH (S k)). unfold attempts in *. simpl.
  cbn [retry_skeleton List.filter]. by rewrite IH.
Qed.

Lemma sleeps_retry_skeleton j : ∀ k, sleeps (retry_skeleton k j) = replicate j 10.
Proof.
  induction j as [|j IH]; intros k; [done|].
  simpl. by rewrite IH.
Qed.

Lemma elem_of_inner_join d l ty :
  (l, ty) ∈ inner_join d ↔
  l ∈ loans d ∧ ty ∈ loan_types d ∧ loan_type_id l = id ty.
Proof.
  unfold inner_join. split.
  - intros Hin%list_elem_of_In. apply in_flat_map in Hin as (l' & Hl' & Hin).
    apply in_map_iff in Hin as (ty' & Heq & Hty). simplify_eq.
    apply list_elem_of_In, list_elem_of_filter in Hty as [Hid Hty].
    split; [by apply list_elem_of_In|done].
  - intros (Hl & Hty & Hid). apply list_elem_of_In, in_flat_map.
    exists l. split; [by apply list_elem_of_In|].
    apply in_map, list_elem_of_In, list_elem_of_filter. done.
Qed.

(** The output stream of an attempt is closed on every path. *)
Lemma DbToHdfs_iteration_closes_files env k fs o fs' t :
  DbToHdfs_iteration env k fs = (o, fs', t) → files_open t [] = [].
Proof.
  intros H. unfold_handlers in H. case_split H.
  all: inversion H; subst; clear H.
  all: cbn [files_open remove_first]; rewrite ?decide_True by done; done.
Qed.

Lemma successful_attempt_closes_connection env k fs :
  attempt_fault env = None →
  ∃ o fs' t,
    DbToHdfs_iteration env k fs = (o, fs', t) ∧
    connections_opened t = 1%nat ∧ connections_closed t = 1%nat.
Proof.
  unfold attempt_fault. intros H.
  destruct (db_connect_fault env) eqn:E1; [done|].
  destruct (db_query_fault env) eqn:E2; [done|].
  destruct (from_pandas_fault env) eqn:E3; [done|].
  destruct (connect_fault (hdfs env)) eqn:E4; [done|].
  destruct (output_fault (hdfs env)) as [[]|] eqn:E5; [done..|].
  unfold_handlers. rewrite E1, E2, E3, E4, E5. simpl.
  eexists _, _, _. split; [reflexivity|]. done.
Qed.

(** When [pd.read_sql] raises, [conn.close()] is skipped: the connection
    that the attempt opened is not closed when the attempt ends. *)
Lemma query_fault_leaves_connection_open env k fs e :
  db_connect_fault env = None → db_query_fault env = Some e →
  ∃ o fs' t,
    DbToHdfs_iteration env k fs = (o, fs', t) ∧
    connections_opened t = 1%nat ∧ connections_closed t = 0%nat.
Proof.
  intros Hc Hq. unfold_handlers. rewrite Hc, Hq.
  destruct (k <? max_retries - 1)%nat; simpl;
    rewrite isinstance_Exception; simpl;
    eexists _, _, _; (split; [reflexivity|]); done.
Qed.

End db_to_hdfs.

(** C5: DbToHdfs always returns a status.  It makes [failed + 1] attempts
    with [failed < 5], so at most 5; each of the [failed] attempts that is
    followed by another one is followed by one sleep of 10 first; it stops
    at the first attempt without a fault, with a status that reports the
    number of rows of the query, which are then the content of the main
    file; when all 5 attempts fail the status is the error status with the
    message of the last fault. *)
Theorem C5_bounded_retry envs fs :
  ∃ failed s fs' t,
    DbToHdfs envs fs = (Returned (Some s), fs', t) ∧
    (failed < 5)%nat ∧
    skeleton t = retry_skeleton 0 failed ∧
    attempts t = S failed ∧
    sleeps t = replicate failed 10 ∧
    (∀ i, (i < failed)%nat → attempt_fault (envs i) ≠ None) ∧
    match attempt_fault (envs failed) with
    | None =>
        s = MkStatusString ("DbToHdfs: Successfully wrote " +:+
              pretty (length (query (db (envs failed)))) +:+ " rows") ∧
        fs' !! main_file_path =
          Some (HFile 2 (Parquet (query (db (envs failed)))))
    | Some e =>
        failed = 4%nat ∧
        s = MkStatusString
              ("ERROR: Could not complete operation after 5 attempts: " +:+
               exc_str e)
    end.
Proof.
  unfold DbToHdfs.
  destruct (first_success_or_all_fail envs max_retries)
    as [(j & Hj & Hok & Hbefore)|Hall].
  - destruct (DbToHdfs_loop_first_success envs max_retries 0 fs j)
      as (fs0 & t & Hrun & Hsk); try done.
    { intros i Hi. apply Hbefore. lia. }
    change (0 + j)%nat with j in Hrun. eexists j, _, _, t.
    split; [exact Hrun|].
    split; [exact Hj|]. split; [exact Hsk|].
    split; [by rewrite <- attempts_skeleton, Hsk, attempts_retry_skeleton|].
    split; [by rewrite <- sleeps_skeleton, Hsk, sleeps_retry_skeleton|].
    split; [exact Hbefore|].
    rewrite Hok. split; [reflexivity|]. apply lookup_insert_eq.
  - destruct (DbToHdfs_loop_exhausted envs 4 0 fs)
      as (e & fs' & t & He & Hrun & Hsk); try done.
    { intros i Hi. apply Hall. lia. }
    eexists 4%nat, _, fs', t. split; [exact Hrun|].
    split; [lia|]. split; [exact Hsk|].
    split; [by rewrite <- attempts_skeleton, Hsk, attempts_retry_skeleton|].
    split; [by rewrite <- sleeps_skeleton, Hsk, sleeps_retry_skeleton|].
    split; [intros i Hi; apply Hall; unfold max_retries; lia|].
    change (max_retries - 1)%nat with 4%nat in He. rewrite He. done.
Qed.

(** Two failures, then a success: three attempts, two sleeps. *)
Example retry_twice :
  let '(o, _, t) :=
    DbToHdfs (λ n, if (n <? 2)%nat then query_fails else attempt_ok db_v1) ∅ in
  o = Returned (Some (MkStatusString "DbToHdfs: Successfully wrote 3 rows")) ∧
  attempts t = 3%nat ∧ sleeps t = [10; 10].
Proof. vm_compute. done. Qed.

(** C8: when DbToHdfs succeeds (at its first attempt without a fault), the
    rows written to the main file are exactly the records of the join of
    loans with loan_types whose loan_amount is strictly greater than 30000
    and strictly less than 800000, in the order and with the multiplicity
    of the join; a record whose amount equals a bound is not written. *)
Theorem C8_strictly_between envs fs j :
  (j < 5)%nat →
  attempt_fault (envs j) = None →
  (∀ i, (i < j)%nat → attempt_fault (envs i) ≠ None) →
  ∃ s fs' t written,
    DbToHdfs envs fs = (Returned (Some s), fs', t) ∧
    fs' !! main_file_path = Some (HFile 2 (Parquet written)) ∧
    written = filter (λ r : row, 30000 < loan_amount r.1 < 800000)
                     (inner_join (db (envs j))) ∧
    (∀ l ty, (l, ty) ∈ written ↔
       (l ∈ loans (db (envs j)) ∧ ty ∈ loan_types (db (envs j)) ∧
        loan_type_id l = id ty) ∧
       30000 < loan_amount l < 800000) ∧
    (∀ r, r ∈ written →
       loan_amount r.1 ≠ 30000 ∧ loan_amount r.1 ≠ 800000).
Proof.
  intros Hj Hok Hbefore. unfold DbToHdfs.
  destruct (DbToHdfs_loop_first_success envs max_retries 0 fs j)
    as (fs0 & t & Hrun & _); try done.
  { intros i Hi. apply Hbefore. lia. }
  change (0 + j)%nat with j in Hrun.
  assert (Hq : query (db (envs j)) =
               filter (λ r : row, 30000 < loan_amount r.1 < 800000)
                      (inner_join (db (envs j)))).
  { unfold query. apply list_filter_iff. intros r. unfold eligible. lia. }
  eexists _, _, t, (query (db (envs j))). split; [exact Hrun|].
  split; [apply lookup_insert_eq|]. split; [exact Hq|]. split.
  - intros l ty. rewrite Hq, list_elem_of_filter, elem_of_inner_join. simpl.
    tauto.
  - intros r. rewrite Hq, list_elem_of_filter. lia.
Qed.

Lemma C8_witness :
  ∃ s fs' t written,
    DbToHdfs query_fails_once ∅ = (Returned (Some s), fs', t) ∧
    fs' !! main_file_path = Some (HFile 2 (Parquet written)) ∧
    written = filter (λ r : row, 30000 < loan_amount r.1 < 800000)
                     (inner_join (db (query_fails_once 1))) ∧
    (∀ l ty, (l, ty) ∈ written ↔
       (l ∈ loans (db (query_fails_once 1)) ∧
        ty ∈ loan_types (db (query_fails_once 1)) ∧
        loan_type_id l = id ty) ∧
       30000 < loan_amount l < 800000) ∧
    (∀ r, r ∈ written →
       loan_amount r.1 ≠ 30000 ∧ loan_amount r.1 ≠ 800000).
Proof.
  apply (C8_strictly_between query_fails_once ∅ 1).
  - lia.
  - reflexivity.
  - intros i Hi. assert (i = 0%nat) as -> by lia. vm_compute. discriminate.
Defined.

(** Amounts 30000 and 800000 are left out, 30001 and 799999 are kept. *)
Example bounds_excluded :
  query db_bounds =
  [ (Loan 55001 30001 1, conventional); (Loan 55003 799999 1, conventional) ].
Proof. vm_compute. reflexivity. Qed.

(** C9 fails on the code: with a query that fails on the first attempt,
    DbToHdfs opens two database connections and closes one; the connection
    of the failed attempt is still open when the call returns.  (The output
    stream, under [with], is closed on every path.) *)
Theorem C9_connection_left_open :
  (DbToHdfs query_fails_once ∅).2 =
    [ Log INFO "DbToHdfs: Attempt 1"; DbConnect;
      Log ERROR "DbToHdfs: Attempt 1 failed: (mysql.connector.errors.ProgrammingError) 1146 (42S02): Table 'CS544.loans' doesn't exist";
      Sleep 10;
      Log INFO "DbToHdfs: Attempt 2"; DbConnect; DbClose;
      Log INFO "DbToHdfs: Read 3 rows from database";
      OpenOutput "/hdma-wi-2021.parquet"; CloseOutput "/hdma-wi-2021.parquet";
      Log INFO "DbToHdfs: Successfully wrote to HDFS" ] ∧
  connections_opened (DbToHdfs query_fails_once ∅).2 = 2%nat ∧
  connections_closed (DbToHdfs query_fails_once ∅).2 = 1%nat ∧
  files_open (DbToHdfs query_fails_once ∅).2 [] = [].
Proof. repeat split; vm_compute; reflexivity. Qed.

(** ** BlockLocations *)

Tactic Notation "unfold_locate" :=
  unfold BlockLocations, BlockLocations_try, requests_get, raise_for_status,
    response_json, try_except, bind, ret, raise, emit, logger_info,
    logger_error.

Section block_locations.
Implicit Types (m : gmap string nat) (h : string) (hs : list string).
Implicit Types (bls : list block_location).

Lemma sum_values_empty : sum_values ∅ = 0%nat.
Proof. apply map_fold_empty. Qed.

Lemma sum_values_insert_fresh m h v :
  m !! h = None → sum_values (<[h := v]> m) = (v + sum_values m)%nat.
Proof.
  intros Hh. unfold sum_values. apply map_fold_insert_L; [|done].
  intros. lia.
Qed.

(** [blocks[host] = blocks.get(host, 0) + 1] adds one to the sum. *)
Lemma sum_values_increment m h :
  sum_values (<[h := (default 0 (m !! h) + 1)%nat]> m) = S (sum_values m).
Proof.
  destruct (m !! h) as [v|] eqn:Hh; simpl.
  - rewrite <- (insert_delete_eq m).
    rewrite sum_values_insert_fresh by apply lookup_delete_eq.
    unfold sum_values at 2.
    rewrite (map_fold_delete_L _ _ h v m); [|intros; lia|done].
    fold (sum_values (delete h m)). lia.
  - rewrite sum_values_insert_fresh by done. lia.
Qed.

Lemma sum_values_count_hosts hs : ∀ m,
  sum_values (count_hosts m hs) = (sum_values m + length hs)%nat.
Proof.
  induction hs as [|h hs IH]; intros m; simpl; [lia|].
  unfold count_hosts in IH |- *. simpl. rewrite IH, sum_values_increment. lia.
Qed.

Lemma lookup_count_hosts h hs : ∀ m,
  default 0%nat (count_hosts m hs !! h) =
  (default 0 (m !! h) + length (filter (λ x, x = h) hs))%nat.
Proof.
  induction hs as [|x hs IH]; intros m; simpl; [lia|].
  unfold count_hosts in IH |- *. simpl. rewrite IH.
  rewrite filter_cons. destruct (decide (x = h)) as [->|Hne].
  - rewrite lookup_insert_eq. simpl. lia.
  - by rewrite lookup_insert_ne.
Qed.

(** The two nested loops are one loop over all replica-host entries. *)
Lemma count_blocks_replica_hosts bls : ∀ m,
  count_blocks m bls = count_hosts m (replica_hosts bls).
Proof.
  induction bls as [|b bls IH]; intros m; [done|].
  unfold count_blocks, replica_hosts in *. simpl. rewrite IH.
  unfold count_hosts. by rewrite foldl_app.
Qed.

Lemma length_replica_hosts_uniform bls r :
  Forall (λ b, length (hosts_of b) = r) bls →
  length (replica_hosts bls) = (length bls * r)%nat.
Proof.
  induction 1 as [|b bls Hb _ IH]; [done|].
  unfold replica_hosts in *. simpl. rewrite length_app, IH, Hb. lia.
Qed.

Lemma BlockLocations_ok net filepath fs sc rs u j :
  net (webhdfs_url filepath) = Returned (Response sc rs u (Returned j)) →
  ¬ (400 ≤ sc < 600) →
  ∃ t, BlockLocations net filepath fs =
       (Returned (BL.MkBlockLocationsResp
                    (count_blocks ∅ (block_descriptors j)) ""), fs, t).
Proof.
  intros Hnet Hsc. unfold_locate. rewrite Hnet. simpl.
  rewrite !bool_decide_eq_false_2 by lia. simpl.
  eexists. reflexivity.
Qed.

Lemma BlockLocations_never_raises net filepath fs :
  ∃ resp t, BlockLocations net filepath fs = (Returned resp, fs, t).
Proof.
  unfold_locate. destruct (net (webhdfs_url filepath)) as [[sc rs u [j|e]]|e];
    simpl; repeat case_bool_decide; simpl;
    rewrite ?isinstance_Exception; simpl; eauto.
Qed.

End block_locations.

(** C6: when the metadata query fails ([requests.get] raises, the status
    is a 4xx or 5xx, or the body is not JSON), BlockLocations returns (it
    does not raise) an empty mapping and a non-empty error; the messages of
    exceptions raised by the collaborators are taken not to be empty, the
    message of an HTTP error is built by [raise_for_status]. *)
Theorem C6_lookup_failure net filepath fs :
  lookup_failed (net (webhdfs_url filepath)) = true →
  lookup_messages_ok (net (webhdfs_url filepath)) = true →
  ∃ err t,
    BlockLocations net filepath fs =
      (Returned (BL.MkBlockLocationsResp ∅ err), fs, t) ∧
    err ≠ "".
Proof.
  unfold lookup_failed, lookup_messages_ok. intros Hfail Hmsg. unfold_locate.
  destruct (net (webhdfs_url filepath)) as [[sc rs u [j|e]]|e]; simpl in *.
  - rewrite orb_false_r in Hfail. apply bool_decide_eq_true in Hfail.
    destruct (decide (sc < 500)).
    + rewrite bool_decide_eq_true_2 by lia. simpl.
      eexists _, _. split; [reflexivity|]. simpl. apply append_nonempty.
    + rewrite bool_decide_eq_false_2 by lia.
      rewrite bool_decide_eq_true_2 by lia. simpl.
      eexists _, _. split; [reflexivity|]. simpl. apply append_nonempty.
  - repeat case_bool_decide; simpl; rewrite ?isinstance_Exception; simpl;
      eexists _, _; (split; [reflexivity|]); simpl;
      first [apply append_nonempty | by apply message_ok_nonempty].
  - rewrite isinstance_Exception. simpl. eexists _, _.
    split; [reflexivity|]. by apply message_ok_nonempty.
Qed.

Lemma C6_witness :
  ∃ err t,
    BlockLocations not_found "/no/such/file" ∅ =
      (Returned (BL.MkBlockLocationsResp ∅ err), ∅, t) ∧
    err ≠ "".
Proof.
  apply (C6_lookup_failure not_found "/no/such/file" ∅); reflexivity.
Defined.

(** A path that does not exist: WebHDFS answers 404. *)
Example nonexistent_path :
  (BlockLocations not_found "/no/such/file" ∅).1.1 =
  Returned (BL.MkBlockLocationsResp ∅
    "404 Client Error: Not Found for url: http://boss:9870/webhdfs/v1/no/such/file?op=GETFILEBLOCKLOCATIONS").
Proof. vm_compute. reflexivity. Qed.

(** C7: on a successful call the counter of a host is the number of
    replica-host entries that name it, one per entry, over all blocks; the
    sum of the counters is the number of (block, replica-host) pairs, and
    when every block lists [r] hosts it is the number of blocks times [r]. *)
Theorem C7_counters net filepath fs sc rs u j :
  net (webhdfs_url filepath) = Returned (Response sc rs u (Returned j)) →
  ¬ (400 ≤ sc < 600) →
  ∃ blocks t,
    BlockLocations net filepath fs =
      (Returned (BL.MkBlockLocationsResp blocks ""), fs, t) ∧
    (∀ h, default 0%nat (blocks !! h) =
          length (filter (λ x, x = h) (replica_hosts (block_descriptors j)))) ∧
    sum_values blocks = length (replica_hosts (block_descriptors j)) ∧
    (∀ r, Forall (λ b, length (hosts_of b) = r) (block_descriptors j) →
          sum_values blocks = (length (block_descriptors j) * r)%nat).
Proof.
  intros Hnet Hsc.
  destruct (BlockLocations_ok net filepath fs sc rs u j Hnet Hsc) as [t Hrun].
  exists (count_blocks ∅ (block_descriptors j)), t. split; [exact Hrun|].
  rewrite count_blocks_replica_hosts.
  assert (Hsum : sum_values (count_hosts ∅ (replica_hosts (block_descriptors j))) =
                 length (replica_hosts (block_descriptors j))).
  { by rewrite sum_values_count_hosts, sum_values_empty. }
  split; [|split; [exact Hsum|]].
  - intros h. by rewrite lookup_count_hosts, lookup_empty.
  - intros r Hr. rewrite Hsum. by apply length_replica_hosts_uniform.
Qed.

Lemma C7_witness :
  ∃ blocks t,
    BlockLocations net_two_blocks "/hdma-wi-2021.parquet" ∅ =
      (Returned (BL.MkBlockLocationsResp blocks ""), ∅, t) ∧
    (∀ h, default 0%nat (blocks !! h) =
          length (filter (λ x, x = h) (replica_hosts (block_descriptors two_blocks)))) ∧
    sum_values blocks = length (replica_hosts (block_descriptors two_blocks)) ∧
    (∀ r, Forall (λ b, length (hosts_of b) = r) (block_descriptors two_blocks) →
          sum_values blocks = (length (block_descriptors two_blocks) * r)%nat).
Proof.
  apply (C7_counters net_two_blocks "/hdma-wi-2021.parquet" ∅ 200 "OK"
           (webhdfs_url "/hdma-wi-2021.parquet") two_blocks);
    [vm_compute; reflexivity | lia].
Defined.

(** Two blocks with two replicas each: four pairs, and the host that
    holds a replica of both blocks counts 2. *)
Example two_blocks_counters :
  (BlockLocations net_two_blocks "/hdma-wi-2021.parquet" ∅).1.1 =
  Returned (BL.MkBlockLocationsResp
              {[ "dn1" := 1%nat; "dn2" := 2%nat; "dn3" := 1%nat ]} "").
Proof. vm_compute. reflexivity. Qed.

(** * Further properties *)

Lemma length_append (a b : string) :
  String.length (a +:+ b) = (String.length a + String.length b)%nat.
Proof. induction a as [|x a IH]; simpl; [done|]. by rewrite IH. Qed.

Lemma append_not_longer (s b : string) c : s ≠ String c (b +:+ s).
Proof.
  intros H. apply (f_equal String.length) in H.
  simpl in H. rewrite length_append in H. lia.
Qed.

Lemma append_inj_r (s : string) : ∀ a b : string, a +:+ s = b +:+ s → a = b.
Proof.
  induction a as [|x a IH]; intros [|y b] H; simpl in H.
  - done.
  - by apply append_not_longer in H.
  - symmetry in H. by apply append_not_longer in H.
  - injection H as -> H. f_equal. by apply IH.
Qed.

Lemma partition_path_inj k1 k2 :
  partition_path k1 = partition_path k2 → k1 = k2.
Proof.
  unfold partition_path. intros H.
  apply (String.app_inj "/partitions/") in H.
  apply append_inj_r in H. by apply pretty_Z_inj in H.
Qed.

Lemma main_not_partition key : main_file_path ≠ partition_path key.
Proof. unfold main_file_path, partition_path. simpl. discriminate. Qed.

(** What a call can do to the name space. *)
Lemma CalcAvgLoan_store env key fs o fs' t :
  CalcAvgLoan env key fs = (o, fs', t) →
  fs' = fs ∨
  ∃ repl rows,
    fs !! main_file_path = Some (HFile repl (Parquet rows)) ∧
    matching key rows ≠ [] ∧
    ((output_fault env = None ∧
      fs' = <[partition_path key := HFile 1 (Parquet (matching key rows))]> fs) ∨
     (∃ e c, output_fault env = Some (WriteFails e c) ∧
             fs' = <[partition_path key := HFile 1 c]> fs)).
Proof.
  intros H. unfold_handlers in H. case_split H.
  all: inversion H; subst; clear H; auto.
  all: right.
  all: match goal with
       | Hm : _ !! main_file_path = Some ?h, Hb : body ?h = Parquet ?t |- _ =>
           destruct h as [repl ?]; simpl in Hb; subst; exists repl, t
       end.
  all: split; [done|]; split; [by eapply column_nonempty|]; eauto.
Qed.

Lemma read_partition_missing key fs :
  fs !! partition_path key = None →
  ∃ t, read_partition key fs = (Returned (inr "create"), fs, t).
Proof.
  intros Hp. unfold_handlers. simpl. rewrite Hp. simpl. eexists. reflexivity.
Qed.

(** X1: a CalcAvgLoan call can change one path only, the partition path
    of its key: MainDataset, the partition files of other keys and every
    other path are as before, on every exit path. *)
Theorem CalcAvgLoan_frame env key fs :
  (CalcAvgLoan env key fs).1.2 !! main_file_path = fs !! main_file_path ∧
  (∀ key', key' ≠ key →
     (CalcAvgLoan env key fs).1.2 !! partition_path key' =
     fs !! partition_path key') ∧
  (∀ p, p ≠ partition_path key →
     (CalcAvgLoan env key fs).1.2 !! p = fs !! p).
Proof.
  destruct (CalcAvgLoan env key fs) as [[o fs'] t] eqn:H. simpl.
  assert (Hp : ∀ p, p ≠ partition_path key → fs' !! p = fs !! p).
  { intros p Hne.
    destruct (CalcAvgLoan_store _ _ _ _ _ _ H)
      as [->|(repl & rows & _ & _ & [[_ ->]|(e & c & _ & ->)])];
      [done|by rewrite lookup_insert_ne..]. }
  split; [apply Hp, main_not_partition|]. split; [|done].
  intros key' Hne. apply Hp. intros Heq. by apply partition_path_inj in Heq.
Qed.

(** X2: unless [write_table] itself fails half-way, a call that does not
    answer create or recreate (a reuse, or any error response) leaves the
    name space exactly as it was. *)
Theorem CalcAvgLoan_writes_only_on_miss env key fs resp fs' t :
  write_not_interrupted env = true →
  CalcAvgLoan env key fs = (Returned resp, fs', t) →
  source resp ≠ "create" → source resp ≠ "recreate" →
  fs' = fs.
Proof.
  unfold write_not_interrupted. intros Hw H Hc Hr.
  unfold_handlers in H. case_split H.
  all: try discriminate.
  all: inversion H; subst; clear H; simpl in *; done.
Qed.

(** X3: every call returns a response whose source is create, reuse,
    recreate or empty; a non-empty source comes with an empty error, an
    empty source with average 0. *)
Theorem CalcAvgLoan_response_shape env key fs :
  ∃ resp,
    (CalcAvgLoan env key fs).1.1 = Returned resp ∧
    (source resp = "create" ∨ source resp = "reuse" ∨
     source resp = "recreate" ∨ source resp = "") ∧
    (source resp ≠ "" → error resp = "") ∧
    (source resp = "" → avg_loan resp = 0).
Proof.
  destruct (CalcAvgLoan env key fs) as [[o fs'] t] eqn:H. simpl.
  unfold_handlers in H. case_split H.
  all: try match goal with
       | Hx : isinstance _ Exception_ = false |- _ =>
           rewrite isinstance_Exception in Hx; discriminate
       end.
  all: inversion H; subst; clear H; eexists; (split; [reflexivity|]); simpl.
  all: repeat split; auto; try done.
Qed.


(** X5: when the read of the partition file raises an exception that is
    not an OSError, the call returns [str(e)] as error and leaves the file
    as it is: later calls meet the same file. *)
Theorem CalcAvgLoan_no_repair env key fs r e :
  connect_fault env = None →
  fs !! partition_path key = Some (HFile r (Unreadable e)) →
  isinstance e OSError = false →
  (CalcAvgLoan env key fs).1 =
  (Returned (MkCalcAvgLoanResp 0 "" (exc_str e)), fs).
Proof.
  intros Hc Hp Ho. unfold_handlers. rewrite Hc. simpl. rewrite Hp. simpl.
  assert (Hf : isinstance e FileNotFoundError = false).
  { destruct e as [[] ?]; simpl in *; done. }
  rewrite Hf, Ho, isinstance_Exception. reflexivity.
Qed.

(** Every file a call opens is closed when the call returns. *)
Theorem CalcAvgLoan_releases_files env key fs :
  files_open (CalcAvgLoan env key fs).2 [] = [].
Proof.
  destruct (CalcAvgLoan env key fs) as [[o fs'] t] eqn:H. simpl.
  by eapply CalcAvgLoan_closes_files.
Qed.

Lemma CalcAvgLoan_other_paths env key fs o fs' t p :
  CalcAvgLoan env key fs = (o, fs', t) →
  p ≠ partition_path key → fs' !! p = fs !! p.
Proof.
  intros H Hne.
  destruct (CalcAvgLoan_store _ _ _ _ _ _ H)
    as [->|(repl & rows & _ & _ & [[_ ->]|(e & c & _ & ->)])];
    [done|by rewrite lookup_insert_ne..].
Qed.

Lemma CalcAvgLoan_sources env key fs resp fs' t :
  CalcAvgLoan env key fs = (Returned resp, fs', t) →
  source resp ≠ "" →
  source resp = "create" ∨ source resp = "recreate" ∨ source resp = "reuse".
Proof.
  intros H Hs. unfold_handlers in H. case_split H.
  all: try discriminate.
  all: inversion H; subst; clear H; simpl in *; auto; done.
Qed.

(** After a response with a source, the partition file of the key is
    readable and the average is the truncated mean of its rows. *)
Lemma CalcAvgLoan_leaves_partition env key fs resp fs' t :
  CalcAvgLoan env key fs = (Returned resp, fs', t) →
  source resp ≠ "" →
  ∃ r rows,
    fs' !! partition_path key = Some (HFile r (Parquet rows)) ∧
    rows ≠ [] ∧ avg_loan resp = mean_of rows.
Proof.
  intros H Hs.
  destruct (CalcAvgLoan_sources _ _ _ _ _ _ H Hs) as [Hc|[Hc|Hc]].
  - destruct (CalcAvgLoan_miss_inv _ _ _ _ _ _ H (or_introl Hc))
      as (repl & rows & _ & Hne & Havg & _ & -> & _).
    exists 1, (matching key rows). by rewrite lookup_insert_eq.
  - destruct (CalcAvgLoan_miss_inv _ _ _ _ _ _ H (or_intror Hc))
      as (repl & rows & _ & Hne & Havg & _ & -> & _).
    exists 1, (matching key rows). by rewrite lookup_insert_eq.
  - destruct (CalcAvgLoan_reuse_inv _ _ _ _ _ _ H Hc)
      as (repl & rows & Hp & Hne & Havg & _ & -> & _).
    by exists repl, rows.
Qed.

Lemma CalcAvgLoan_keeps_consistent env key fs o fs' t repl main :
  fs !! main_file_path = Some (HFile repl (Parquet main)) →
  cache_consistent main fs →
  clean_write_failure env = true →
  CalcAvgLoan env key fs = (o, fs', t) →
  cache_consistent main fs' ∧
  fs' !! main_file_path = Some (HFile repl (Parquet main)).
Proof.
  intros Hm Hcons Hclean H. split.
  - destruct (CalcAvgLoan_store _ _ _ _ _ _ H)
      as [->|(repl' & rows & Hm' & _ & [[_ ->]|(e & c & Hw & ->)])]; [done|..].
    + rewrite Hm in Hm'. simplify_eq. intros key' r rows' Hl.
      destruct (decide (key' = key)) as [->|Hne].
      * rewrite lookup_insert_eq in Hl. by simplify_eq.
      * rewrite lookup_insert_ne in Hl; [by eapply Hcons|].
        intros Heq. by apply partition_path_inj in Heq.
    + unfold clean_write_failure in Hclean. rewrite Hw in Hclean.
      destruct c as [?|e']; [done|]. intros key' r rows' Hl.
      destruct (decide (key' = key)) as [->|Hne].
      * rewrite lookup_insert_eq in Hl. by simplify_eq.
      * rewrite lookup_insert_ne in Hl; [by eapply Hcons|].
        intros Heq. by apply partition_path_inj in Heq.
  - rewrite <- Hm. eapply CalcAvgLoan_other_paths; [done|].
    apply main_not_partition.
Qed.

Lemma CalcAvgLoan_consistent_mean env key fs resp fs' t repl main :
  fs !! main_file_path = Some (HFile repl (Parquet main)) →
  cache_consistent main fs →
  CalcAvgLoan env key fs = (Returned resp, fs', t) →
  source resp ≠ "" →
  matching key main ≠ [] ∧ avg_loan resp = mean_of (matching key main).
Proof.
  intros Hm Hcons H Hs.
  destruct (CalcAvgLoan_sources _ _ _ _ _ _ H Hs) as [Hc|[Hc|Hc]].
  - destruct (CalcAvgLoan_miss_inv _ _ _ _ _ _ H (or_introl Hc))
      as (repl' & rows & Hm' & Hne & Havg & _).
    rewrite Hm in Hm'. by simplify_eq.
  - destruct (CalcAvgLoan_miss_inv _ _ _ _ _ _ H (or_intror Hc))
      as (repl' & rows & Hm' & Hne & Havg & _).
    rewrite Hm in Hm'. by simplify_eq.
  - destruct (CalcAvgLoan_reuse_inv _ _ _ _ _ _ H Hc)
      as (r & rows & Hp & Hne & Havg & _).
    apply Hcons in Hp. by subst.
Qed.

Lemma CalcAvgLoan_calls_cons env key rest fs :
  ∃ resp fs1 t1,
    CalcAvgLoan env key fs = (Returned resp, fs1, t1) ∧
    ∀ resps fs2 t2,
      CalcAvgLoan_calls rest fs1 = (Returned resps, fs2, t2) →
      CalcAvgLoan_calls ((env, key) :: rest) fs =
      (Returned (resp :: resps), fs2, t1 ++ t2 ++ []).
Proof.
  destruct (CalcAvgLoan_never_raises env key fs) as (resp & fs1 & t1 & H).
  exists resp, fs1, t1. split; [done|]. intros resps fs2 t2 Hrest.
  cbn [CalcAvgLoan_calls]. unfold bind at 1. rewrite H.
  unfold bind at 1. rewrite Hrest. reflexivity.
Qed.

Lemma CalcAvgLoan_calls_returns calls : ∀ fs,
  ∃ resps fs' t, CalcAvgLoan_calls calls fs = (Returned resps, fs', t).
Proof.
  induction calls as [|[env key] rest IH]; intros fs; [by eexists _, _, _|].
  destruct (CalcAvgLoan_calls_cons env key rest fs) as (resp & fs1 & t1 & _ & Hc).
  destruct (IH fs1) as (resps & fs2 & t2 & Hrest).
  eexists _, _, _. by apply Hc.
Qed.

(** X6: in a run of calls, for any keys, on a name space where
    MainDataset is readable and every readable partition file holds the
    MainDataset rows of its key (e.g. no partition file at all), every
    response with a source gives the truncated mean over the MainDataset
    rows of its key, whichever the source; MainDataset and the consistency
    of the partition files are kept.  A [write_table] that fails is taken
    not to leave a readable file, and the amounts of the MainDataset rows
    of each requested key are non-negative with a sum below 2^53. *)
Theorem CalcAvgLoan_calls_mean calls : ∀ fs repl main,
  fs !! main_file_path = Some (HFile repl (Parquet main)) →
  cache_consistent main fs →
  Forall (λ c, clean_write_failure c.1 = true) calls →
  Forall (λ c, binary64_exact (matching c.2 main)) calls →
  ∃ resps fs' t,
    CalcAvgLoan_calls calls fs = (Returned resps, fs', t) ∧
    cache_consistent main fs' ∧
    fs' !! main_file_path = Some (HFile repl (Parquet main)) ∧
    Forall2 (λ c resp,
               source resp ≠ "" →
               matching c.2 main ≠ [] ∧
               avg_loan resp =
                 sum_Z (column_loan_amount (matching c.2 main)) ÷
                 Z.of_nat (length (matching c.2 main)))
            calls resps.
Proof.
  induction calls as [|[env key] rest IH];
    intros fs repl main Hm Hcons Hclean Hexact.
  - by eexists [], fs, _.
  - apply Forall_cons in Hclean as [Hc1 Hrest].
    apply Forall_cons in Hexact as [_ Hexact].
    destruct (CalcAvgLoan_calls_cons env key rest fs)
      as (resp & fs1 & t1 & H & Hcons').
    destruct (CalcAvgLoan_keeps_consistent _ _ _ _ _ _ _ _ Hm Hcons Hc1 H)
      as [Hcons1 Hm1].
    destruct (IH fs1 repl main Hm1 Hcons1 Hrest Hexact)
      as (resps & fs2 & t2 & Hrun & Hcons2 & Hm2 & Hall).
    eexists _, _, _. split; [by apply Hcons'|]. split; [done|]. split; [done|].
    constructor; [|done]. simpl. intros Hs.
    exact (CalcAvgLoan_consistent_mean _ _ _ _ _ _ _ _ Hm Hcons H Hs).
Qed.

Lemma CalcAvgLoan_calls_other_keys key others : ∀ fs,
  Forall (λ c, c.2 ≠ key) others →
  (CalcAvgLoan_calls others fs).1.2 !! partition_path key =
  fs !! partition_path key.
Proof.
  induction others as [|[env k] rest IH]; intros fs Hall; [done|].
  apply Forall_cons in Hall as [Hk Hrest]. simpl in Hk.
  destruct (CalcAvgLoan_calls_cons env k rest fs) as (resp & fs1 & t1 & H & Hc).
  destruct (CalcAvgLoan_calls_returns rest fs1) as (resps & fs2 & t2 & Hr).
  rewrite (Hc _ _ _ Hr). simpl.
  specialize (IH fs1 Hrest). rewrite Hr in IH. simpl in IH. rewrite IH.
  eapply CalcAvgLoan_other_paths; [done|].
  intros Heq. apply partition_path_inj in Heq. by subst.
Qed.

(** X7: once a call for a key has answered with a source, calls for other
    keys, whatever they do, do not disturb it: the next call for the key
    answers reuse with the same average. *)
Theorem CalcAvgLoan_other_keys_keep_cache env env' key fs resp fs1 t1 others :
  CalcAvgLoan env key fs = (Returned resp, fs1, t1) →
  source resp ≠ "" →
  Forall (λ c, c.2 ≠ key) others →
  connect_fault env' = None →
  ∃ t, CalcAvgLoan env' key (CalcAvgLoan_calls others fs1).1.2 =
       (Returned (MkCalcAvgLoanResp (avg_loan resp) "reuse" ""),
        (CalcAvgLoan_calls others fs1).1.2, t).
Proof.
  intros H Hs Hothers Hc.
  destruct (CalcAvgLoan_leaves_partition _ _ _ _ _ _ H Hs)
    as (r & rows & Hp & Hne & ->).
  apply CalcAvgLoan_reuse with (repl := r); [done| |done].
  by rewrite CalcAvgLoan_calls_other_keys.
Qed.

(** X8: requesting each of several distinct keys twice in a row (what
    measure_performance of performance_analyzer.py does over COUNTY_CODES)
    on a name space without partition files for them answers, key after
    key, create then reuse with the truncated MainDataset mean of the
    key, the amounts of the MainDataset rows of each key being
    non-negative with a sum below 2^53. *)
Theorem CalcAvgLoan_cold_then_warm env keys : ∀ fs repl main,
  NoDup keys →
  connect_fault env = None → output_fault env = None →
  fs !! main_file_path = Some (HFile repl (Parquet main)) →
  Forall (λ k, fs !! partition_path k = None ∧ matching k main ≠ []) keys →
  Forall (λ k, binary64_exact (matching k main)) keys →
  (CalcAvgLoan_calls (map (pair env) (twice keys)) fs).1.1 =
  Returned (flat_map
              (λ k, [ MkCalcAvgLoanResp (mean_of (matching k main)) "create" "";
                      MkCalcAvgLoanResp (mean_of (matching k main)) "reuse" "" ])
              keys).
Proof.
  induction keys as [|k keys IH];
    intros fs repl main Hnd Hc Ho Hm Hall Hexact; [done|].
  apply NoDup_cons in Hnd as [Hk Hnd].
  apply Forall_cons in Hall as [[Hp Hrows] Hall].
  apply Forall_cons in Hexact as [_ Hexact].
  destruct (read_partition_missing k fs Hp) as [t0 Hr].
  destruct (CalcAvgLoan_fallthrough env k fs "create" t0 repl main Hc Ho Hr Hm Hrows)
    as [t1 H1].
  set (fs1 := <[partition_path k := HFile 1 (Parquet (matching k main))]> fs) in *.
  destruct (CalcAvgLoan_reuse env k fs1 1 (matching k main) Hc) as [t2 H2];
    [apply lookup_insert_eq|done|].
  assert (Hm1 : fs1 !! main_file_path = Some (HFile repl (Parquet main))).
  { unfold fs1. rewrite lookup_insert_ne; [done|].
    intros Heq. symmetry in Heq. by apply main_not_partition in Heq. }
  assert (Hall1 : Forall (λ k', fs1 !! partition_path k' = None ∧
                                matching k' main ≠ []) keys).
  { apply Forall_forall. intros k' Hin.
    rewrite Forall_forall in Hall. destruct (Hall k' Hin) as [Hp' Hr'].
    split; [|done]. unfold fs1. rewrite lookup_insert_ne; [done|].
    intros Heq. apply partition_path_inj in Heq. by subst. }
  specialize (IH fs1 repl main Hnd Hc Ho Hm1 Hall1 Hexact).
  destruct (CalcAvgLoan_calls_returns (map (pair env) (twice keys)) fs1)
    as (resps & fs2 & t3 & Hrest).
  rewrite Hrest in IH. simpl in IH. injection IH as ->.
  change (map (pair env) (twice (k :: keys)))
    with ((env, k) :: (env, k) :: map (pair env) (twice keys)).
  cbn [CalcAvgLoan_calls]. unfold bind at 1. rewrite H1.
  unfold bind at 1. unfold bind at 1. rewrite H2.
  unfold bind at 1. rewrite Hrest. reflexivity.
Qed.

Lemma CalcAvgLoan_cold_then_warm_witness :
  (CalcAvgLoan_calls (map (pair no_faults) (twice COUNTY_CODES)) fs_analyzer).1.1 =
  Returned (flat_map
              (λ k, [ MkCalcAvgLoanResp (mean_of (matching k analyzer_rows)) "create" "";
                      MkCalcAvgLoanResp (mean_of (matching k analyzer_rows)) "reuse" "" ])
              COUNTY_CODES).
Proof.
  apply (CalcAvgLoan_cold_then_warm no_faults COUNTY_CODES fs_analyzer 2
           analyzer_rows).
  - compute_done.
  - reflexivity.
  - reflexivity.
  - vm_compute. reflexivity.
  - repeat (constructor; [split; [vm_compute; reflexivity
                                 |vm_compute; discriminate]|]).
    constructor.
  - compute_done.
Defined.

Lemma cache_consistent_no_partitions main fs :
  (∀ key, fs !! partition_path key = None) → cache_consistent main fs.
Proof. intros Hn key r rows Hl. by rewrite Hn in Hl. Qed.

Lemma fs_main_no_partitions key : fs_main !! partition_path key = None.
Proof.
  unfold fs_main. apply lookup_singleton_ne, main_not_partition.
Qed.

Lemma CalcAvgLoan_writes_only_on_miss_witness :
  (CalcAvgLoan no_faults 55027 fs_main).1.2 = fs_main.
Proof.
  apply (CalcAvgLoan_writes_only_on_miss no_faults 55027 fs_main
           (MkCalcAvgLoanResp 0 "" "cannot convert float NaN to integer")
           (CalcAvgLoan no_faults 55027 fs_main).1.2
           (CalcAvgLoan no_faults 55027 fs_main).2).
  - reflexivity.
  - vm_compute. reflexivity.
  - discriminate.
  - discriminate.
Defined.


Lemma CalcAvgLoan_no_repair_witness :
  (CalcAvgLoan no_faults 55001 fs_garbled).1 =
  (Returned (MkCalcAvgLoanResp 0 "" (exc_str bad_magic)), fs_garbled).
Proof.
  apply (CalcAvgLoan_no_repair no_faults 55001 fs_garbled 1 bad_magic);
    vm_compute; reflexivity.
Defined.

Lemma CalcAvgLoan_calls_mean_witness :
  ∃ resps fs' t,
    CalcAvgLoan_calls
      [(no_faults, 55001); (no_faults, 55003); (no_faults, 55001);
       (no_faults, 55027)] fs_main = (Returned resps, fs', t) ∧
    cache_consistent main_rows fs' ∧
    fs' !! main_file_path = Some (HFile 2 (Parquet main_rows)) ∧
    Forall2 (λ c resp,
               source resp ≠ "" →
               matching c.2 main_rows ≠ [] ∧
               avg_loan resp =
                 sum_Z (column_loan_amount (matching c.2 main_rows)) ÷
                 Z.of_nat (length (matching c.2 main_rows)))
            [(no_faults, 55001); (no_faults, 55003); (no_faults, 55001);
             (no_faults, 55027)] resps.
Proof.
  apply (CalcAvgLoan_calls_mean _ fs_main 2 main_rows).
  - vm_compute. reflexivity.
  - apply cache_consistent_no_partitions, fs_main_no_partitions.
  - repeat constructor.
  - compute_done.
Defined.

Lemma CalcAvgLoan_other_keys_keep_cache_witness :
  ∃ t, CalcAvgLoan no_faults 55001
         (CalcAvgLoan_calls [(no_faults, 55003); (no_faults, 55027)]
            (CalcAvgLoan no_faults 55001 fs_main).1.2).1.2 =
       (Returned (MkCalcAvgLoanResp 120000 "reuse" ""),
        (CalcAvgLoan_calls [(no_faults, 55003); (no_faults, 55027)]
           (CalcAvgLoan no_faults 55001 fs_main).1.2).1.2, t).
Proof.
  apply (CalcAvgLoan_other_keys_keep_cache no_faults no_faults 55001 fs_main
           (MkCalcAvgLoanResp 120000 "create" "")
           (CalcAvgLoan no_faults 55001 fs_main).1.2
           (CalcAvgLoan no_faults 55001 fs_main).2).
  - vm_compute. reflexivity.
  - discriminate.
  - repeat constructor; discriminate.
  - reflexivity.
Defined.

Section db_to_hdfs_more.
Implicit Types (env : attempt_env) (envs : nat → attempt_env).
Implicit Types (fs : gmap string hfile) (t : list event).

Lemma DbToHdfs_iteration_store env k fs o fs' t :
  DbToHdfs_iteration env k fs = (o, fs', t) →
  fs' = fs ∨ ∃ c, fs' = <[main_file_path := HFile 2 c]> fs.
Proof.
  intros H. unfold_handlers in H. case_split H.
  all: inversion H; subst; clear H; eauto.
Qed.

Lemma DbToHdfs_iteration_returns env k fs :
  ∃ r fs' t, DbToHdfs_iteration env k fs = (Returned r, fs', t).
Proof.
  destruct (attempt_fault env) as [e|] eqn:Hf.
  - destruct (DbToHdfs_iteration_fail env k fs e Hf) as (fs' & t & H & _).
    by eexists _, _, _.
  - destruct (DbToHdfs_iteration_ok env k fs Hf) as (t & H & _).
    by eexists _, _, _.
Qed.

Lemma DbToHdfs_loop_step envs a rest fs :
  ∃ r fs1 t1,
    DbToHdfs_iteration (envs a) a fs = (Returned r, fs1, t1) ∧
    DbToHdfs_loop envs (a :: rest) fs =
      match r with
      | inl s => (Returned (Some s), fs1, t1 ++ [])
      | inr _ =>
          let '(o, fs2, t2) := DbToHdfs_loop envs rest fs1 in (o, fs2, t1 ++ t2)
      end.
Proof.
  destruct (DbToHdfs_iteration_returns (envs a) a fs) as (r & fs1 & t1 & H).
  exists r, fs1, t1. split; [done|].
  cbn [DbToHdfs_loop]. unfold bind at 1. rewrite H. by destruct r.
Qed.

Lemma DbToHdfs_loop_other_paths envs l : ∀ fs p,
  p ≠ main_file_path →
  (DbToHdfs_loop envs l fs).1.2 !! p = fs !! p.
Proof.
  induction l as [|a rest IH]; intros fs p Hp; [done|].
  destruct (DbToHdfs_loop_step envs a rest fs) as (r & fs1 & t1 & Hit & ->).
  assert (H1 : fs1 !! p = fs !! p).
  { destruct (DbToHdfs_iteration_store _ _ _ _ _ _ Hit) as [->|[c ->]];
      [done|by rewrite lookup_insert_ne]. }
  destruct r as [s|[]]; simpl; [done|].
  specialize (IH fs1 p Hp).
  destruct (DbToHdfs_loop envs rest fs1) as [[o fs2] t2]. simpl in *.
  by rewrite IH.
Qed.

Lemma files_open_app t1 : ∀ t2 acc,
  files_open (t1 ++ t2) acc = files_open t2 (files_open t1 acc).
Proof.
  induction t1 as [|ev t1 IH]; intros t2 acc; [done|].
  destruct ev; simpl; apply IH.
Qed.

Lemma DbToHdfs_loop_closes_files envs l : ∀ fs,
  files_open (DbToHdfs_loop envs l fs).2 [] = [].
Proof.
  induction l as [|a rest IH]; intros fs; [done|].
  destruct (DbToHdfs_loop_step envs a rest fs) as (r & fs1 & t1 & Hit & ->).
  pose proof (DbToHdfs_iteration_closes_files _ _ _ _ _ _ Hit) as Hc.
  destruct r as [s|[]]; simpl.
  - by rewrite app_nil_r.
  - specialize (IH fs1).
    destruct (DbToHdfs_loop envs rest fs1) as [[o fs2] t2]. simpl in *.
    by rewrite files_open_app, Hc.
Qed.

Lemma DbToHdfs_iteration_unchanged env k fs :
  attempt_fault env ≠ None →
  write_not_interrupted (hdfs env) = true →
  (DbToHdfs_iteration env k fs).1.2 = fs.
Proof.
  unfold attempt_fault, write_not_interrupted. intros Hf Hw.
  destruct (DbToHdfs_iteration env k fs) as [[o fs'] t] eqn:H. simpl.
  unfold_handlers in H. case_split H.
  all: inversion H; subst; clear H; try done.
  all: repeat match goal with
       | Hx : _ = _ |- _ => rewrite Hx in Hf
       | Hx : _ = _ |- _ => rewrite Hx in Hw
       end; done.
Qed.

Lemma DbToHdfs_loop_unchanged envs l : ∀ fs,
  Forall (λ i, attempt_fault (envs i) ≠ None ∧
               write_not_interrupted (hdfs (envs i)) = true) l →
  (DbToHdfs_loop envs l fs).1.2 = fs.
Proof.
  induction l as [|a rest IH]; intros fs Hall; [done|].
  apply Forall_cons in Hall as [[Hf Hw] Hall].
  destruct (DbToHdfs_loop_step envs a rest fs) as (r & fs1 & t1 & Hit & ->).
  pose proof (DbToHdfs_iteration_unchanged (envs a) a fs Hf Hw) as Hu.
  rewrite Hit in Hu. simpl in Hu. subst fs1.
  destruct r as [s|[]]; simpl; [done|].
  specialize (IH fs Hall).
  destruct (DbToHdfs_loop envs rest fs) as [[o fs2] t2]. by simpl in *.
Qed.

Lemma DbToHdfs_loop_agree envs envs' : ∀ m k fs j,
  (j < m)%nat →
  attempt_fault (envs (k + j)%nat) = None →
  (∀ i, (k ≤ i ≤ k + j)%nat → envs' i = envs i) →
  DbToHdfs_loop envs' (seq k m) fs = DbToHdfs_loop envs (seq k m) fs.
Proof.
  induction m as [|m IH]; intros k fs j Hj Hok Hagree; [lia|].
  cbn [seq].
  destruct (DbToHdfs_loop_step envs k (seq (S k) m) fs)
    as (r & fs1 & t1 & Hit & ->).
  destruct (DbToHdfs_loop_step envs' k (seq (S k) m) fs)
    as (r' & fs1' & t1' & Hit' & ->).
  rewrite (Hagree k) in Hit' by lia. rewrite Hit in Hit'. simplify_eq.
  destruct r' as [s|[]]; [done|].
  destruct j as [|j].
  - rewrite Nat.add_0_r in Hok.
    destruct (DbToHdfs_iteration_ok (envs k) k fs Hok) as (t & Hs & _).
    rewrite Hit in Hs. discriminate.
  - rewrite (IH (S k) fs1' j); [done|lia|..].
    + by replace (S k + j)%nat with (k + S j)%nat by lia.
    + intros i Hi. apply Hagree. lia.
Qed.

End db_to_hdfs_more.

(** X9: DbToHdfs can change one path only, the main file: partition files
    written earlier survive a new materialization untouched. *)
Theorem DbToHdfs_frame envs fs :
  (∀ key, (DbToHdfs envs fs).1.2 !! partition_path key =
          fs !! partition_path key) ∧
  (∀ p, p ≠ main_file_path → (DbToHdfs envs fs).1.2 !! p = fs !! p).
Proof.
  split.
  - intros key. apply DbToHdfs_loop_other_paths.
    intros Heq. symmetry in Heq. by apply main_not_partition in Heq.
  - intros p Hp. by apply DbToHdfs_loop_other_paths.
Qed.

(** X10: when all five attempts fail and none fails inside
    [write_table], the name space, the previous MainDataset included, is
    exactly as before. *)
Theorem DbToHdfs_failure_keeps_dataset envs fs :
  (∀ i, (i < 5)%nat →
        attempt_fault (envs i) ≠ None ∧
        write_not_interrupted (hdfs (envs i)) = true) →
  (DbToHdfs envs fs).1.2 = fs.
Proof.
  intros Hall. apply DbToHdfs_loop_unchanged.
  apply Forall_forall. intros i Hi. apply Hall.
  apply list_elem_of_In, in_seq in Hi. unfold max_retries in Hi. lia.
Qed.

Lemma DbToHdfs_failure_keeps_dataset_witness :
  (DbToHdfs (λ _, db_down) fs_main).1.2 = fs_main.
Proof.
  apply (DbToHdfs_failure_keeps_dataset (λ _, db_down) fs_main).
  intros i _. split; [discriminate|reflexivity].
Defined.

(** The output stream of every attempt is closed when DbToHdfs returns. *)
Theorem DbToHdfs_releases_files envs fs :
  files_open (DbToHdfs envs fs).2 [] = [].
Proof. unfold DbToHdfs. apply DbToHdfs_loop_closes_files. Qed.

(** X11: DbToHdfs does not look past its first attempt without a fault:
    two behaviours of the collaborators that agree up to that attempt give
    the same status, name space and events. *)
Theorem DbToHdfs_stops_at_first_success envs envs' fs j :
  (j < 5)%nat →
  attempt_fault (envs j) = None →
  (∀ i, (i ≤ j)%nat → envs' i = envs i) →
  DbToHdfs envs' fs = DbToHdfs envs fs.
Proof.
  intros Hj Hok Hagree. unfold DbToHdfs.
  apply (DbToHdfs_loop_agree envs envs' max_retries 0 fs j); [done|done|].
  intros i Hi. apply Hagree. lia.
Qed.

Lemma DbToHdfs_stops_at_first_success_witness :
  DbToHdfs (λ n, if (n <? 2)%nat then query_fails_once n else db_down) fs_main =
  DbToHdfs query_fails_once fs_main.
Proof.
  apply (DbToHdfs_stops_at_first_success query_fails_once _ fs_main 1).
  - lia.
  - reflexivity.
  - intros i Hi. destruct i as [|[|i]]; [reflexivity..|lia].
Defined.

(** X12: an attempt opens at most one database connection and never
    closes more than it opened; the connection stays open at the end of the
    attempt exactly when [engine.connect()] succeeded and [pd.read_sql]
    raised. *)
Theorem DbToHdfs_iteration_connections env k fs :
  (connections_closed (DbToHdfs_iteration env k fs).2 ≤
   connections_opened (DbToHdfs_iteration env k fs).2 ≤ 1)%nat ∧
  (connections_closed (DbToHdfs_iteration env k fs).2 <
   connections_opened (DbToHdfs_iteration env k fs).2 ↔
   db_connect_fault env = None ∧ db_query_fault env ≠ None)%nat.
Proof.
  destruct (DbToHdfs_iteration env k fs) as [[o fs'] t] eqn:H. simpl.
  unfold_handlers in H. case_split H.
  all: inversion H; subst; clear H.
  all: unfold connections_closed, connections_opened; simpl.
  all: split; [lia|].
  all: split;
    [intros Hlt; first [lia | split; congruence]
    |intros [Hc Hq]; first [lia | congruence]].
Qed.

Lemma filter_no_id (tys : list loan_type) x :
  x ∉ map id tys → filter (λ t, x = id t) tys = [].
Proof.
  induction tys as [|a tys IH]; [done|]. simpl.
  intros [Ha Hx]%not_elem_of_cons.
  rewrite filter_cons, decide_False by done. by apply IH.
Qed.

Lemma filter_unique_id (tys : list loan_type) ty x :
  NoDup (map id tys) → ty ∈ tys → x = id ty →
  filter (λ t, x = id t) tys = [ty].
Proof.
  intros Hnd Hin ->. induction tys as [|a tys IH]; [by apply elem_of_nil in Hin|].
  simpl in Hnd. apply NoDup_cons in Hnd as [Ha Hnd].
  rewrite filter_cons. apply elem_of_cons in Hin as [->|Hin].
  - rewrite decide_True by done. f_equal. by apply filter_no_id.
  - rewrite decide_False; [by apply IH|].
    intros Heq. apply Ha. rewrite <- Heq.
    apply list_elem_of_In, in_map. by apply list_elem_of_In.
Qed.

(** X13: when the ids of loan_types are distinct and every loan names one
    of them, the query returns one row per loan whose amount is strictly
    between 30000 and 800000: up to order, the loans of its rows are these
    loans, so [len(df)] is their number. *)
Theorem query_one_row_per_loan d :
  loan_types_resolve d →
  map fst (query d) ≡ₚ
    filter (λ l, 30000 < loan_amount l < 800000) (loans d) ∧
  length (query d) =
    length (filter (λ l, 30000 < loan_amount l < 800000) (loans d)).
Proof.
  intros [Hnd Hall].
  assert (Hmap : map fst (query d) =
                 filter (λ l, 30000 < loan_amount l < 800000) (loans d)).
  { unfold query, inner_join, table, row. destruct d as [ls tys]. simpl in *.
    induction Hall as [|l ls (ty & Hty & Hid) _ IH]; [done|].
    cbn [flat_map]. rewrite filter_app, map_app.
    rewrite (filter_unique_id _ ty _ Hnd Hty Hid). cbn [map].
    rewrite (filter_cons _ l ls), (filter_cons eligible (l, ty) []), filter_nil.
    destruct (decide (30000 < loan_amount l < 800000)).
    - rewrite decide_True by (unfold eligible; simpl; lia).
      simpl. f_equal. exact IH.
    - rewrite decide_False by (unfold eligible; simpl; lia).
      simpl. exact IH. }
  split; [by rewrite Hmap|]. by rewrite <- Hmap, length_map.
Qed.

Lemma query_one_row_per_loan_witness :
  map fst (query db_bounds) ≡ₚ
    filter (λ l, 30000 < loan_amount l < 800000) (loans db_bounds) ∧
  length (query db_bounds) =
    length (filter (λ l, 30000 < loan_amount l < 800000) (loans db_bounds)).
Proof.
  apply (query_one_row_per_loan db_bounds). split.
  - compute_done.
  - repeat (constructor;
              [exists conventional; split; [by left|reflexivity]|]).
    constructor.
Defined.

Section block_counters.
Implicit Types (m : gmap string nat) (h : string) (hs : list string).
Implicit Types (bls : list block_location).

Lemma is_Some_count_hosts h hs : ∀ m,
  is_Some (count_hosts m hs !! h) ↔ is_Some (m !! h) ∨ h ∈ hs.
Proof.
  induction hs as [|x hs IH]; intros m.
  - simpl. rewrite elem_of_nil. tauto.
  - unfold count_hosts in *. cbn [foldl]. rewrite IH, elem_of_cons.
    destruct (decide (x = h)) as [->|Hne].
    + rewrite lookup_insert_eq. split; [auto|]. intros _. left. by eexists.
    + rewrite lookup_insert_ne by done. split; [tauto|].
      intros [?|[?|?]]; [tauto|by subst|tauto].
Qed.

Lemma lookup_count_hosts_empty h hs :
  count_hosts ∅ hs !! h =
  if decide (h ∈ hs) then Some (length (filter (λ x, x = h) hs)) else None.
Proof.
  pose proof (is_Some_count_hosts h hs ∅) as Hs.
  pose proof (lookup_count_hosts h hs ∅) as Hv.
  rewrite lookup_empty in Hs, Hv. simpl in Hv.
  destruct (decide (h ∈ hs)) as [Hin|Hin].
  - destruct Hs as [_ [n Hn]]; [by right|]. rewrite Hn in Hv |- *.
    simpl in Hv. by rewrite Hv.
  - destruct (count_hosts ∅ hs !! h) as [n|] eqn:Hn; [|done].
    destruct Hs as [[Hs|Hs] _]; [by eexists|by destruct Hs|done].
Qed.

Lemma length_filter_eq_pos h hs :
  h ∈ hs → (1 ≤ length (filter (λ x, x = h) hs))%nat.
Proof.
  intros Hin. assert (Hf : h ∈ filter (λ x, x = h) hs)
    by (by apply list_elem_of_filter).
  destruct (filter (λ x, x = h) hs); [by apply elem_of_nil in Hf|simpl; lia].
Qed.

Lemma length_filter_eq_NoDup h hs :
  NoDup hs →
  length (filter (λ x, x = h) hs) = if decide (h ∈ hs) then 1%nat else 0%nat.
Proof.
  induction 1 as [|x hs Hx Hnd IH]; [done|].
  rewrite filter_cons. destruct (decide (x = h)) as [->|Hne].
  - rewrite decide_True by (by left). simpl. rewrite IH.
    by rewrite decide_False.
  - rewrite IH. destruct (decide (h ∈ hs)).
    + rewrite decide_True by (by right). done.
    + rewrite decide_False; [done|].
      intros [?|?]%elem_of_cons; [by subst|done].
Qed.

Lemma length_filter_replica_hosts h bls :
  Forall (λ b, NoDup (hosts_of b)) bls →
  length (filter (λ x, x = h) (replica_hosts bls)) = length (blocks_on h bls).
Proof.
  induction 1 as [|b bls Hb _ IH]; [done|].
  unfold replica_hosts, blocks_on in *. cbn [flat_map].
  rewrite filter_app, length_app, IH, (length_filter_eq_NoDup _ _ Hb).
  rewrite filter_cons. by destruct (decide (h ∈ hosts_of b)).
Qed.

End block_counters.

(** X14: the mapping built by the two loops has an entry for a host
    exactly when some block lists it, and no counter is 0. *)
Theorem count_blocks_hosts bls :
  (∀ h, is_Some (count_blocks ∅ bls !! h) ↔ h ∈ replica_hosts bls) ∧
  (∀ h n, count_blocks ∅ bls !! h = Some n → (1 ≤ n)%nat).
Proof.
  rewrite count_blocks_replica_hosts. split.
  - intros h. rewrite is_Some_count_hosts, lookup_empty.
    split; [intros [[? ?]|?]; done|auto].
  - intros h n. rewrite lookup_count_hosts_empty.
    destruct (decide (h ∈ replica_hosts bls)); [|done].
    intros [= <-]. by apply length_filter_eq_pos.
Qed.

(** X15: when no block lists a host twice, the counter of a host is the
    number of blocks that list it, hence at most the number of blocks. *)
Theorem count_blocks_distinct_hosts bls h :
  Forall (λ b, NoDup (hosts_of b)) bls →
  default 0%nat (count_blocks ∅ bls !! h) = length (blocks_on h bls) ∧
  (default 0%nat (count_blocks ∅ bls !! h) ≤ length bls)%nat.
Proof.
  intros Hnd.
  assert (Hc : default 0%nat (count_blocks ∅ bls !! h) = length (blocks_on h bls)).
  { rewrite count_blocks_replica_hosts, lookup_count_hosts, lookup_empty.
    simpl. by apply length_filter_replica_hosts. }
  split; [done|]. rewrite Hc. unfold blocks_on. apply length_filter.
Qed.

Lemma count_blocks_distinct_hosts_witness :
  default 0%nat (count_blocks ∅ (block_descriptors two_blocks) !! "dn2") =
    length (blocks_on "dn2" (block_descriptors two_blocks)) ∧
  (default 0%nat (count_blocks ∅ (block_descriptors two_blocks) !! "dn2") ≤
   length (block_descriptors two_blocks))%nat.
Proof.
  apply (count_blocks_distinct_hosts (block_descriptors two_blocks) "dn2").
  repeat (constructor; [compute_done|]). constructor.
Defined.

(** X16: the mapping depends on the replica-host entries only up to
    order: reordering the block descriptors, or the hosts inside them,
    gives the same mapping. *)
Theorem count_blocks_order_irrelevant bls bls' :
  replica_hosts bls ≡ₚ replica_hosts bls' →
  count_blocks ∅ bls = count_blocks ∅ bls'.
Proof.
  intros Hp. rewrite !count_blocks_replica_hosts. apply map_eq. intros h.
  rewrite !lookup_count_hosts_empty.
  assert (Hlen : length (filter (λ x, x = h) (replica_hosts bls)) =
                 length (filter (λ x, x = h) (replica_hosts bls')))
    by (by rewrite Hp).
  destruct (decide (h ∈ replica_hosts bls)) as [Hin|Hin].
  - rewrite decide_True by (by rewrite <- Hp). by rewrite Hlen.
  - rewrite decide_False by (by rewrite <- Hp). done.
Qed.

Lemma count_blocks_order_irrelevant_witness :
  count_blocks ∅ [ BlockLoc (Some ["dn1"; "dn2"]); BlockLoc (Some ["dn2"; "dn3"]) ] =
  count_blocks ∅ [ BlockLoc (Some ["dn3"; "dn2"]); BlockLoc None;
                   BlockLoc (Some ["dn2"; "dn1"]) ].
Proof.
  apply (count_blocks_order_irrelevant
           [ BlockLoc (Some ["dn1"; "dn2"]); BlockLoc (Some ["dn2"; "dn3"]) ]
           [ BlockLoc (Some ["dn3"; "dn2"]); BlockLoc None;
             BlockLoc (Some ["dn2"; "dn1"]) ]).
  simpl. solve_Permutation.
Defined.

(** X17: a successful response whose JSON lacks the BlockLocations or the
    BlockLocation key, or whose blocks list no hosts, is not an error: the
    mapping is empty and so is the error field. *)
Theorem BlockLocations_missing_keys net filepath fs sc rs u j :
  net (webhdfs_url filepath) = Returned (Response sc rs u (Returned j)) →
  ¬ (400 ≤ sc < 600) →
  Forall (λ b, hosts_of b = []) (block_descriptors j) →
  (BlockLocations net filepath fs).1.1 =
  Returned (BL.MkBlockLocationsResp ∅ "").
Proof.
  intros Hnet Hsc Hall.
  destruct (BlockLocations_ok net filepath fs sc rs u j Hnet Hsc) as [t ->].
  simpl. do 2 f_equal. rewrite count_blocks_replica_hosts.
  assert (Hnil : replica_hosts (block_descriptors j) = []).
  { induction Hall as [|b bls Hb _ IH]; [done|].
    unfold replica_hosts in *. cbn [flat_map]. by rewrite Hb, IH. }
  by rewrite Hnil.
Qed.

Lemma BlockLocations_missing_keys_witness :
  (BlockLocations net_no_keys "/hdma-wi-2021.parquet" ∅).1.1 =
  Returned (BL.MkBlockLocationsResp ∅ "").
Proof.
  apply (BlockLocations_missing_keys net_no_keys "/hdma-wi-2021.parquet" ∅
           200 "OK" (webhdfs_url "/hdma-wi-2021.parquet") no_block_keys).
  - reflexivity.
  - lia.
  - constructor.
Defined.

Lemma sum_Z_bounds (xs : list Z) lo hi :
  Forall (λ x, lo ≤ x ≤ hi) xs →
  lo * Z.of_nat (length xs) ≤ sum_Z xs ≤ hi * Z.of_nat (length xs).
Proof.
  induction 1 as [|x xs Hx _ IH]; [simpl; lia|].
  change (sum_Z (x :: xs)) with (x + sum_Z xs). cbn [length]. lia.
Qed.

Lemma mean_of_bounds (rows : table) lo hi :
  0 ≤ lo →
  rows ≠ [] →
  Forall (λ r : row, lo ≤ loan_amount r.1 ≤ hi) rows →
  lo ≤ mean_of rows ≤ hi.
Proof.
  intros Hlo Hne Hall. unfold mean_of.
  assert (Hcol : Forall (λ x, lo ≤ x ≤ hi) (column_loan_amount rows)).
  { unfold column_loan_amount. by apply Forall_map. }
  apply sum_Z_bounds in Hcol.
  assert (Hlen : length (column_loan_amount rows) = length rows)
    by apply length_map.
  rewrite Hlen in Hcol.
  set (s := sum_Z (column_loan_amount rows)) in *.
  set (n := Z.of_nat (length rows)) in *.
  assert (0 < n) by (unfold n; destruct rows; [done|cbn [length]; lia]).
  rewrite Z.quot_div_nonneg by nia. split.
  - apply Z.div_le_lower_bound; lia.
  - apply Z.div_le_upper_bound; lia.
Qed.

(** X18: after a successful DbToHdfs, an average that CalcAvgLoan
    computes from the main file (source create or recreate) is the
    truncated mean of the written rows of the key, is at least 30000 and is
    below 800000, the sum of the amounts of these rows being below 2^53
    (they are above 30000, hence non-negative). *)
Theorem materialized_average_in_bounds envs fs j env key resp fs2 t :
  (j < 5)%nat →
  attempt_fault (envs j) = None →
  (∀ i, (i < j)%nat → attempt_fault (envs i) ≠ None) →
  sum_Z (column_loan_amount (matching key (query (db (envs j))))) < 2 ^ 53 →
  CalcAvgLoan env key (DbToHdfs envs fs).1.2 = (Returned resp, fs2, t) →
  source resp = "create" ∨ source resp = "recreate" →
  avg_loan resp =
    sum_Z (column_loan_amount (matching key (query (db (envs j))))) ÷
    Z.of_nat (length (matching key (query (db (envs j))))) ∧
  30000 ≤ avg_loan resp < 800000.
Proof.
  intros Hj Hok Hbefore _ H Hs.
  destruct (DbToHdfs_loop_first_success envs max_retries 0 fs j)
    as (fs0 & t0 & Hrun & _); try done.
  { intros i Hi. apply Hbefore. lia. }
  change (0 + j)%nat with j in Hrun. unfold DbToHdfs in H.
  rewrite Hrun in H. simpl in H.
  destruct (CalcAvgLoan_miss_inv _ _ _ _ _ _ H Hs)
    as (repl & rows & Hm & Hne & Havg & _).
  rewrite lookup_insert_eq in Hm. simplify_eq.
  split; [done|]. rewrite Havg.
  fold (mean_of (matching key (query (db (envs j))))).
  assert (30001 ≤ mean_of (matching key (query (db (envs j)))) ≤ 799999); [|lia].
  apply mean_of_bounds; [lia|done|].
  apply Forall_forall. intros r Hr.
  unfold matching, query in Hr.
  apply list_elem_of_filter in Hr as [_ Hr].
  apply list_elem_of_filter in Hr as [He _]. unfold eligible in He. lia.
Qed.

Lemma materialized_average_in_bounds_witness :
  avg_loan (MkCalcAvgLoanResp 120000 "create" "") =
    sum_Z (column_loan_amount (matching 55001 (query (db (query_fails_once 1))))) ÷
    Z.of_nat (length (matching 55001 (query (db (query_fails_once 1))))) ∧
  30000 ≤ avg_loan (MkCalcAvgLoanResp 120000 "create" "") < 800000.
Proof.
  apply (materialized_average_in_bounds query_fails_once ∅ 1 no_faults 55001
           (MkCalcAvgLoanResp 120000 "create" "")
           (CalcAvgLoan no_faults 55001 (DbToHdfs query_fails_once ∅).1.2).1.2
           (CalcAvgLoan no_faults 55001 (DbToHdfs query_fails_once ∅).1.2).2).
  - lia.
  - reflexivity.
  - intros i Hi. assert (i = 0%nat) as -> by lia. vm_compute. discriminate.
  - vm_compute. reflexivity.
  - vm_compute. reflexivity.
  - by left.
Defined.

(** X19: BlockLocations always returns a response and leaves the name
    space alone; a non-empty error always comes with an empty mapping. *)
Theorem BlockLocations_response_shape net filepath fs :
  ∃ resp,
    (BlockLocations net filepath fs).1 = (Returned resp, fs) ∧
    (BL.error resp ≠ "" → BL.block_entries resp = ∅).
Proof.
  unfold_locate. destruct (net (webhdfs_url filepath)) as [[sc rs u [j|e]]|e];
    simpl; repeat case_bool_decide; simpl;
    rewrite ?isinstance_Exception; simpl;
    eexists; (split; [reflexivity|]); simpl; done.
Qed.

(** X20: a call opens MainDataset at most once, and not at all when it
    answers reuse. *)
Theorem CalcAvgLoan_main_scans env key fs :
  (main_scans (CalcAvgLoan env key fs).2 ≤ 1)%nat ∧
  (∀ resp, (CalcAvgLoan env key fs).1.1 = Returned resp →
           source resp = "reuse" →
           main_scans (CalcAvgLoan env key fs).2 = 0%nat).
Proof.
  destruct (CalcAvgLoan env key fs) as [[o fs'] t] eqn:H. simpl.
  assert (Hp : bool_decide (partition_path key = main_file_path) = false).
  { apply bool_decide_eq_false_2. intros Heq. symmetry in Heq.
    by apply main_not_partition in Heq. }
  assert (Hm : bool_decide (main_file_path = main_file_path) = true)
    by (by apply bool_decide_eq_true_2).
  unfold_handlers in H. case_split H.
  all: inversion H; subst; clear H.
  all: unfold main_scans; cbn [List.filter]; rewrite ?Hp, ?Hm; simpl.
  all: split; [lia|]; intros resp [= <-]; simpl; done.
Qed.
